(** * Staircase quantity engine: [calculateStairMetrics]

    A shallow embedding of [Staircase/services/stairCalculator.ts], of the
    components that feed it and draw its report, and the properties its
    specification states about it.

    Number model.  The source computes on JavaScript numbers, which are
    IEEE 754 doubles.  The development has the engine twice.

    - Over doubles ([IEEE]): every operation rounds as ECMAScript says, a
      quotient can underflow to 0 or overflow, [NaN] and the infinities
      are values, and integers stop being exact at [2 ^ 53].  Whatever
      depends on rounding (how many risers a height makes, how they are
      shared out, what a product with an overflowing factor is) is
      stated there.

    - Over exact numbers: counts are integers ([Z]) and the other
      quantities rationals ([Q]).  It carries the properties that do not
      depend on how an operation rounds: which branch a sign selects, what
      a field is computed from, how the loops and the drawing are shaped.

    [Math.sqrt] and [**] are parameters of both. *)

From Stdlib Require Import String ZArith QArith Qminmax Qabs Qround.
From Stdlib Require DecimalString Qcanon SpecFloat.
From Stdlib Require Import List Bool Lia Lqa.
Import ListNotations.

Open Scope Q_scope.

(** ** The JavaScript operations the engine uses *)

Module JS.

(** [Math.round]: the nearest integer, a tie going towards plus infinity. *)
Definition Math_round (x : Q) : Z := Qfloor (x + (1 # 2)).

Definition Math_floor (x : Q) : Z := Qfloor x.

Definition Math_ceil (x : Q) : Z := Qceiling x.

Definition Math_min (a b : Z) : Z := Z.min a b.

(** [a % b]: the remainder that takes the sign of the dividend. *)
Definition rem (a b : Z) : Z := Z.rem a b.

(** [x <= y] on numbers. *)
Definition le (x y : Q) : bool := Qle_bool x y.

(** An integer read back as a number. *)
Definition num (z : Z) : Q := inject_Z z.

End JS.

Import JS.

(** A rational stand-in for [Math.sqrt], precise to twelve decimals; it
    instantiates the parameter when the engine is run on concrete inputs. *)
Definition Qsqrt_approx (x : Q) : Q :=
  Z.sqrt (Qfloor (x * num (10 ^ 24))) # (10 ^ 12).

(** ** Data model ([types.ts]) *)

Record StairInputParams := {
  height : Q;
  stairWidth : Q;
  riser : Q;
  tread : Q;
  slabThick : Q;
  landingLength : Q;
  landingDepth : Q;
  landingThick : Q
}.

Record FlightData := {
  risers : Z;
  treads : Z;
  run : Q;
  rise : Q;
  inclined_length : Q
}.

Record StairMetrics := {
  num_flights : Z;
  num_landings : Z;
  total_treads : Z;
  total_volume : Q;
  total_formwork_area : Q;
  formwork_bottom_slab : Q;
  formwork_landing_bottom : Q;
  formwork_risers : Q;
  formwork_above_slab : Q;
  volume_waist_slabs : Q;
  volume_landings : Q;
  volume_steps : Q;
  flights_data : list FlightData;
  R : Q;
  T : Q;
  ST : Q;
  LD : Q;
  LT : Q
}.

(** The accumulators the [forEach] pass over [flights_data] updates. *)
Record Totals := {
  acc_inclined_length : Q;
  acc_volume_waist_slabs : Q;
  acc_volume_steps : Q;
  acc_total_treads : Z
}.

(** ** Sample inputs *)

(** The application's default form values ([App.tsx]). *)
Definition default_params : StairInputParams :=
  {| height := 4; stairWidth := 1950; riser := 180; tread := 280;
     slabThick := 150; landingLength := 4100; landingDepth := 1495;
     landingThick := 200 |}.

Definition with_height (h : Q) (p : StairInputParams) : StairInputParams :=
  {| height := h; stairWidth := stairWidth p; riser := riser p;
     tread := tread p; slabThick := slabThick p;
     landingLength := landingLength p; landingDepth := landingDepth p;
     landingThick := landingThick p |}.

Definition with_riser (r : Q) (p : StairInputParams) : StairInputParams :=
  {| height := height p; stairWidth := stairWidth p; riser := r;
     tread := tread p; slabThick := slabThick p;
     landingLength := landingLength p; landingDepth := landingDepth p;
     landingThick := landingThick p |}.

(** A rise too small for a single riser: [round (0.05 / 0.18) = 0]. *)
Definition low_rise_params : StairInputParams :=
  with_height 0.05 default_params.

(** A cleared riser field. *)
Definition zero_riser_params : StairInputParams := with_riser 0 default_params.




(** 10 m climbed in risers of 1e-13 mm: 1e17 risers, past [2 ^ 53]. *)
Definition fine_riser_params : StairInputParams :=
  with_riser (1 # 10 ^ 13) (with_height 10 default_params).

(** No riser fits, and a landing whose area overflows. *)
Definition vast_landing_params : StairInputParams :=
  {| height := 0.05; stairWidth := 1950; riser := 180; tread := 280;
     slabThick := 150; landingLength := inject_Z (10 ^ 200);
     landingDepth := inject_Z (10 ^ 200); landingThick := 200 |}.

(** A quotient that is 20.5 exactly and 20.499999999999996 in doubles. *)
Definition half_riser_params : StairInputParams :=
  with_riser 200 (with_height 4.1 default_params).

(** The default stair, narrower and with thinner slabs. *)
Definition narrow_params : StairInputParams :=
  {| height := 4; stairWidth := 1200; riser := 180; tread := 280;
     slabThick := 125; landingLength := 2500; landingDepth := 1200;
     landingThick := 150 |}.

(** ** The visualizer's view state ([StairVisualizer]: zoom and pan)

    The three [useState] cells and the inline cursor style of the canvas
    are one record; a handler is a function from the state it sees to the
    state it leaves.  The handlers are attached to the canvas, so the
    canvas they test for is there; [preventDefault] stops the page from
    scrolling and leaves this state alone.  [Math.min], [Math.max] and
    [Math.abs] on numbers are [Qmin], [Qmax] and [Qabs]. *)

Module View.

Record Point := { x : Q; y : Q }.

Record State := {
  zoom : Q;
  offset : Point;
  isPanning : bool;
  cursor : string
}.

(** The fields of the events that the handlers read. *)
Record MouseEvent := { button : Z; movementX : Q; movementY : Q }.

Record WheelEvent := { clientX : Q; clientY : Q; deltaY : Q }.

(** [canvas.getBoundingClientRect()], as far as it is read. *)
Record DOMRect := { left : Q; top : Q }.

Definition initial : State :=
  {| zoom := 1; offset := {| x := 0; y := 0 |}; isPanning := false;
     cursor := "" |}.

Definition setZoom (z : Q) (s : State) : State :=
  {| zoom := z; offset := offset s; isPanning := isPanning s;
     cursor := cursor s |}.

Definition setOffset (o : Point) (s : State) : State :=
  {| zoom := zoom s; offset := o; isPanning := isPanning s;
     cursor := cursor s |}.

Definition setIsPanning (b : bool) (s : State) : State :=
  {| zoom := zoom s; offset := offset s; isPanning := b;
     cursor := cursor s |}.

Definition setCursor (c : string) (s : State) : State :=
  {| zoom := zoom s; offset := offset s; isPanning := isPanning s;
     cursor := c |}.

Definition lt (a b : Q) : bool := negb (Qle_bool b a).

Definition zoomIn (s : State) : State :=
  setZoom (Qmin (zoom s * 1.25) 10) s.

Definition zoomOut (s : State) : State :=
  setZoom (Qmax (zoom s / 1.25) 0.2) s.

Definition resetView (s : State) : State :=
  setOffset {| x := 0; y := 0 |} (setZoom 1 s).

Definition handleMouseDown (e : MouseEvent) (s : State) : State :=
  if negb (button e =? 0)%Z then s
  else setCursor "grabbing" (setIsPanning true s).

Definition handleMouseMove (e : MouseEvent) (s : State) : State :=
  if negb (isPanning s) then s
  else setOffset {| x := x (offset s) + movementX e;
                    y := y (offset s) + movementY e |} s.

Definition handleMouseUpOrLeave (s : State) : State :=
  setCursor "grab" (setIsPanning false s).

Definition handleWheel (rect : DOMRect) (e : WheelEvent) (s : State)
  : State :=
  let mouseX := clientX e - left rect in
  let mouseY := clientY e - top rect in
  let delta := deltaY e * - 0.005 in
  let newZoom := Qmax 0.2 (Qmin (zoom s * (1 + delta)) 10) in
  let zoomFactor := newZoom / zoom s in
  if lt (Qabs (1 - zoomFactor)) 0.01 then s
  else
    let newOffsetX := mouseX - (mouseX - x (offset s)) * zoomFactor in
    let newOffsetY := mouseY - (mouseY - y (offset s)) * zoomFactor in
    setOffset {| x := newOffsetX; y := newOffsetY |} (setZoom newZoom s).

(** What the component wires to the handlers: the three buttons, the mouse
    events of the canvas and its wheel listener. *)
Inductive Event :=
| ZoomIn
| ZoomOut
| ResetView
| MouseDown (e : MouseEvent)
| MouseMove (e : MouseEvent)
| MouseUpOrLeave
| Wheel (rect : DOMRect) (e : WheelEvent).

Definition dispatch (s : State) (ev : Event) : State :=
  match ev with
  | ZoomIn => zoomIn s
  | ZoomOut => zoomOut s
  | ResetView => resetView s
  | MouseDown e => handleMouseDown e s
  | MouseMove e => handleMouseMove e s
  | MouseUpOrLeave => handleMouseUpOrLeave s
  | Wheel rect e => handleWheel rect e s
  end.

(** The state after a sequence of events, from the initial one. *)
Definition run (evs : list Event) : State := fold_left dispatch evs initial.

(** The bounds the handlers clamp the zoom to. *)
Definition zoom_in_range (s : State) : Prop :=
  0.2 <= zoom s /\ zoom s <= 10.

(** The offset after the mouse moves of a drag, each added in turn. *)
Definition panned (start : Point) (evs : list MouseEvent) : Point :=
  fold_left (fun acc e => {| x := x acc + movementX e;
                             y := y acc + movementY e |})
            evs start.

End View.

(** ** The input form ([InputForm.handleInputChange])

    [parseFloat] is a parameter: [None] stands for [NaN], the one place
    where the form meets it.  The object spread with a computed key is a
    record update chosen by the name of the input. *)

Module Form.

(** [parseFloat(value) || 0]: [NaN] and zero give 0. *)
Definition or_zero (v : option Q) : Q :=
  match v with
  | None => 0
  | Some q => if Qeq_bool q 0 then 0 else q
  end.

(** [{ ...prevParams, [name]: v }], seen through the eight fields. *)
Definition set_field (name : string) (v : Q) (p : StairInputParams)
  : StairInputParams :=
  {| height := if String.eqb name "height" then v else height p;
     stairWidth := if String.eqb name "stairWidth" then v else stairWidth p;
     riser := if String.eqb name "riser" then v else riser p;
     tread := if String.eqb name "tread" then v else tread p;
     slabThick := if String.eqb name "slabThick" then v else slabThick p;
     landingLength :=
       if String.eqb name "landingLength" then v else landingLength p;
     landingDepth :=
       if String.eqb name "landingDepth" then v else landingDepth p;
     landingThick :=
       if String.eqb name "landingThick" then v else landingThick p |}.

(** [params[id]], for the value an input shows. *)
Definition get_field (name : string) (p : StairInputParams) : option Q :=
  if String.eqb name "height" then Some (height p)
  else if String.eqb name "stairWidth" then Some (stairWidth p)
  else if String.eqb name "riser" then Some (riser p)
  else if String.eqb name "tread" then Some (tread p)
  else if String.eqb name "slabThick" then Some (slabThick p)
  else if String.eqb name "landingLength" then Some (landingLength p)
  else if String.eqb name "landingDepth" then Some (landingDepth p)
  else if String.eqb name "landingThick" then Some (landingThick p)
  else None.

(** The ids of the eight inputs the form renders. *)
Definition field_names : list string :=
  [ "height"; "stairWidth"; "riser"; "tread";
    "slabThick"; "landingThick"; "landingLength"; "landingDepth" ]%string.

Definition handleInputChange (parseFloat : string -> option Q)
           (name value : string) (prevParams : StairInputParams)
  : StairInputParams :=
  set_field name (or_zero (parseFloat value)) prevParams.

(** A stand-in for [parseFloat] on strings of decimal digits; anything else,
    the empty string included, is [NaN]. *)
Definition parse_digits (s : string) : option Q :=
  match DecimalString.NilZero.uint_of_string s with
  | Some u => Some (inject_Z (Z.of_uint u))
  | None => None
  end.

End Form.

(** ** Library functions of the components

    The trigonometric functions and the conversions of a number to text are
    parameters, like [Math.sqrt]. *)

Record Builtins := {
  js_atan2 : Q -> Q -> Q;
  js_sin : Q -> Q;
  js_cos : Q -> Q;
  js_PI : Q;
  (** [x.toFixed(digits)] *)
  js_toFixed : Q -> nat -> string;
  (** [String(x)], also for a number inside a template literal *)
  js_toString : Q -> string
}.

(** An instance to run the components with: integers print in decimal,
    [toFixed] rounds half away from zero, the trigonometric functions are
    constant. *)
Definition decimal_of_Z (z : Z) : string :=
  DecimalString.NilZero.string_of_int (Z.to_int z).

Definition sample_toFixed (q : Q) (digits : nat) : string :=
  let scale := (10 ^ Z.of_nat digits)%Z in
  let n := Qfloor (Qabs q * inject_Z scale + (1 # 2)) in
  let sign := if Qle_bool 0 q then ""%string else "-"%string in
  let whole := decimal_of_Z (n / scale) in
  match digits with
  | O => (sign ++ whole)%string
  | _ =>
      let frac := decimal_of_Z (n mod scale) in
      let zeros :=
        String.concat "" (repeat "0"%string (digits - String.length frac)) in
      (sign ++ whole ++ "." ++ zeros ++ frac)%string
  end.

Definition sample_builtins : Builtins :=
  {| js_atan2 := fun _ _ => 0;
     js_sin := fun _ => 0;
     js_cos := fun _ => 1;
     js_PI := 3.141592653589793;
     js_toFixed := sample_toFixed;
     js_toString := fun q => decimal_of_Z (Qfloor q) |}.

(** ** The results panel ([ResultsDisplay], the stringer lengths) *)

Module Display.

(** [array.map((x, index) => ...)] *)
Fixpoint map_index {A B : Type} (f : A -> nat -> B) (index : nat)
         (l : list A) : list B :=
  match l with
  | [] => []
  | a :: l' => f a index :: map_index f (S index) l'
  end.

(** Line 97: one [F<n>: <length>m] entry per flight joined by [" | "], or
    ["N/A"] when that text is empty. *)
Definition stringer_lengths (js : Builtins) (results : StairMetrics)
  : string :=
  let joined :=
    String.concat " | "
      (map_index
         (fun flight index =>
            ("F" ++ js_toString js (num (Z.of_nat index + 1)) ++ ": "
             ++ js_toFixed js (inclined_length flight) 2 ++ "m")%string)
         O (flights_data results)) in
  if String.eqb joined "" then "N/A"%string else joined.

End Display.

(** ** The drawing ([StairVisualizer], [draw])

    The canvas context is written to, never read: [draw] is the list of
    the calls and property assignments it makes, in order.  A [Path2D]
    object is the list of the calls made on it. *)

Module Canvas.

Inductive PathCmd :=
| moveTo (x y : Q)
| lineTo (x y : Q)
| rect (x y w h : Q)
| closePath.

Inductive Cmd :=
| save
| restore
| set_fillStyle (style : string)
| set_strokeStyle (style : string)
| set_lineWidth (w : Q)
| set_font (font : string)
| set_textAlign (align : string)
| set_textBaseline (baseline : string)
| fillRect (x y w h : Q)
| translate (x y : Q)
| rotate (angle : Q)
| beginPath
| path (c : PathCmd)
| fill
| stroke
| fillPath (shape : list PathCmd)
| strokePath (shape : list PathCmd)
| fillText (text : string) (x y : Q)
| setLineDash (segments : list Q).

(** [for (let i = 0; i < n; i++)] over a loop state. *)
Definition for_upto {S : Type} (n : Z) (body : S -> nat -> S) (init : S)
  : S :=
  fold_left body (seq 0 (Z.to_nat n)) init.

Fixpoint repeat_string (n : nat) (s : string) : string :=
  match n with
  | O => ""%string
  | S n' => (s ++ repeat_string n' s)%string
  end.

(** [s.padStart(targetLength, padString)] *)
Definition padStart (targetLength : nat) (padString s : string) : string :=
  let stringLength := String.length s in
  if (targetLength <=? stringLength)%nat then s
  else if String.eqb padString "" then s
  else
    let fillLen := (targetLength - stringLength)%nat in
    (String.substring 0 fillLen (repeat_string fillLen padString) ++ s)%string.

(** The mutable locals of the loop over the flights. *)
Record FlightLoop := {
  currentY : Q;
  direction : Z;
  totalTreadCountSoFar : Z;
  finalX : Q;
  finalY : Q;
  drawn : list Cmd
}.

(** The mutable locals of the loop over the dimension lines. *)
Record DimLoop := {
  accumulatedRise : Q;
  dimDirection : Z;
  dim_drawn : list Cmd
}.

Section Draw.

Variable js : Builtins.

(** Lines 75-78 and 84-86: the background. *)
Definition background (width height : Q) : list Cmd :=
  [ save; set_fillStyle "#1A202C"; fillRect 0 0 width height ].

Definition fillStyle : string := "#384252".
Definition strokeStyle : string := "#FBBF24".
Definition textStyle : string := "#EF4444".

(** Lines 93-94. *)
Definition totalRise (flights_data : list FlightData) : Q :=
  fold_left (fun sum f => sum + rise f) flights_data 0.

(** [Math.max(...)] of the runs of a flight list that has a first flight. *)
Definition maxRun (first : FlightData) (others : list FlightData) : Q :=
  fold_left Qmax (map run others) (run first).

(** Lines 102-106. *)
Definition baseScale (width height totalDrawingWidth totalRise : Q) : Q :=
  let padding_top := 40 in
  let padding_right := 80 in
  let padding_bottom := 40 in
  let padding_left := 80 in
  let canvasWidth := width - padding_left - padding_right in
  let canvasHeight := height - padding_top - padding_bottom in
  Qmin (canvasWidth / totalDrawingWidth) (canvasHeight / totalRise) * 0.9.

(** Lines 143-152: the risers and treads of the outline of a flight;
    the state is [topX], [topY] and the shape. *)
Definition outline (R T scale : Q) (direction : Z) (flight : FlightData)
           (flightStartX flightStartY : Q) (flightShape : list PathCmd)
  : Q * Q * list PathCmd :=
  for_upto (risers flight)
    (fun '(topX, topY, flightShape) i =>
       let topY := topY - R * scale in
       let flightShape := flightShape ++ [lineTo topX topY] in
       if (Z.of_nat i <? treads flight)%Z then
         let topX := topX + T * scale * num direction in
         (topX, topY, flightShape ++ [lineTo topX topY])
       else (topX, topY, flightShape))
    (flightStartX, flightStartY, flightShape).

(** Lines 182-189: the tread highlights; the state is [treadX], [treadY] and
    the calls made. *)
Definition tread_highlights (R T scale : Q) (direction : Z)
           (flight : FlightData) (flightStartX flightStartY : Q)
  : list Cmd :=
  snd (for_upto (treads flight)
         (fun '(treadX, treadY, cmds) _ =>
            let treadY := treadY - R * scale in
            let cmds := cmds ++ [path (moveTo treadX treadY)] in
            let treadX := treadX + T * scale * num direction in
            (treadX, treadY, cmds ++ [path (lineTo treadX treadY)]))
         (flightStartX, flightStartY, [])).

(** Lines 219-236: the step numbers; the state is [numX], [numY] and the
    calls made. *)
Definition step_numbers (R T scale : Q) (direction : Z)
           (flight : FlightData) (flightStartX flightStartY : Q)
           (totalTreadCountSoFar : Z) : list Cmd :=
  let stepFontSize := Qmax 1 (R * 0.4 * scale) in
  snd (for_upto (treads flight)
         (fun '(numX, numY, cmds) i =>
            let cmds :=
              cmds ++
              [ set_fillStyle textStyle;
                set_font ("bold " ++ js_toString js stepFontSize
                          ++ "px sans-serif");
                set_textAlign "center";
                set_textBaseline "middle";
                fillText
                  (padStart 2 "0"
                     (js_toString js
                        (num (totalTreadCountSoFar + Z.of_nat i + 1))))
                  (numX + (T * scale * num direction * 0.7))
                  (numY - (R * scale * 0.3)) ] in
            let numY := numY - R * scale in
            let numX := numX + T * scale * num direction in
            (numX, numY, cmds))
         (flightStartX, flightStartY, [])).

(** Lines 134-255: one turn of the loop over the flights. *)
Definition draw_flight (data : StairMetrics) (zoom scale maxRun : Q)
           (st : FlightLoop) (f : nat) (flight : FlightData) : FlightLoop :=
  let direction := direction st in
  let flightStartX := if (direction =? 1)%Z then 0 else maxRun * scale in
  let flightStartY := - currentY st in
  let flightShape := [moveTo flightStartX flightStartY] in
  let '(topX, topY, flightShape) :=
    outline (R data) (T data) scale direction flight
            flightStartX flightStartY flightShape in
  let innerCornerTopX := flightStartX + run flight * scale * num direction in
  let innerCornerTopY := flightStartY - rise flight * scale in
  let flightShape := flightShape ++ [lineTo innerCornerTopX innerCornerTopY] in
  let angle := js_atan2 js (rise flight) (run flight) in
  let waistOffsetX := js_sin js angle * ST data * scale in
  let waistOffsetY := js_cos js angle * ST data * scale in
  let waistUnderTopCornerX := innerCornerTopX + waistOffsetX * num direction in
  let waistUnderTopCornerY := innerCornerTopY + waistOffsetY in
  let waistUnderBottomCornerX := flightStartX + waistOffsetX * num direction in
  let waistUnderBottomCornerY := flightStartY + waistOffsetY in
  let flightShape :=
    flightShape ++
    [ lineTo waistUnderTopCornerX waistUnderTopCornerY;
      lineTo waistUnderBottomCornerX waistUnderBottomCornerY;
      closePath ] in
  let cmds :=
    drawn st ++
    [ set_fillStyle fillStyle; set_strokeStyle strokeStyle;
      set_lineWidth (1.5 / zoom);
      fillPath flightShape; strokePath flightShape;
      set_strokeStyle "#34D399"; set_lineWidth (2 / zoom); beginPath ] ++
    tread_highlights (R data) (T data) scale direction flight
                     flightStartX flightStartY ++
    [ stroke;
      set_strokeStyle "#60A5FA"; set_lineWidth (2 / zoom); beginPath;
      path (moveTo waistUnderBottomCornerX waistUnderBottomCornerY);
      path (lineTo waistUnderTopCornerX waistUnderTopCornerY);
      stroke ] in
  let cmds :=
    if (Z.of_nat f <? num_landings data)%Z then
      let landingRectWidth := LD data * scale in
      let landingRectX :=
        if (direction =? 1)%Z then innerCornerTopX
        else innerCornerTopX - landingRectWidth in
      cmds ++
      [ beginPath;
        path (rect landingRectX innerCornerTopY landingRectWidth
                   (LT data * scale));
        set_lineWidth (1.5 / zoom);
        set_fillStyle fillStyle; set_strokeStyle strokeStyle;
        fill; stroke ]
    else cmds in
  let last :=
    (Z.of_nat f =? Z.of_nat (length (flights_data data)) - 1)%Z in
  let finalX := if last then innerCornerTopX else finalX st in
  let finalY := if last then innerCornerTopY else finalY st in
  let cmds :=
    cmds ++
    step_numbers (R data) (T data) scale direction flight
                 flightStartX flightStartY (totalTreadCountSoFar st) in
  let totalTreadCountSoFar :=
    (totalTreadCountSoFar st + treads flight)%Z in
  let waistLabelFontSize := Qmax 1 (ST data * 0.6 * scale) in
  let waistMidX := (waistUnderBottomCornerX + waistUnderTopCornerX) / 2 in
  let waistMidY := (waistUnderBottomCornerY + waistUnderTopCornerY) / 2 in
  let cmds :=
    cmds ++
    [ save;
      set_fillStyle "#A0AEC0";
      set_font ("bold " ++ js_toString js waistLabelFontSize
                ++ "px sans-serif");
      set_textAlign "center";
      translate waistMidX waistMidY;
      rotate (angle * num direction);
      fillText ("L = " ++ js_toFixed js (inclined_length flight) 2 ++ " m")
               0 (- ST data * scale * 0.25);
      restore ] in
  {| currentY := currentY st + rise flight * scale;
     direction := (direction * -1)%Z;
     totalTreadCountSoFar := totalTreadCountSoFar;
     finalX := finalX; finalY := finalY;
     drawn := cmds |}.

(** Lines 276-295: [drawDimLine]. *)
Definition drawDimLine (R scale dimFontSize : Q) (x1 y1 x2 y2 : Q)
           (text : string) (isVertical : bool) : list Cmd :=
  let tickSize := Qmax 2 (R * 0.15 * scale) in
  let angle := js_atan2 js (y2 - y1) (x2 - x1) in
  [ beginPath;
    path (moveTo x1 y1); path (lineTo x2 y2);
    path (moveTo x1 y1);
    path (lineTo (x1 + tickSize * js_cos js (angle + js_PI js / 6))
                 (y1 + tickSize * js_sin js (angle + js_PI js / 6)));
    path (moveTo x1 y1);
    path (lineTo (x1 + tickSize * js_cos js (angle - js_PI js / 6))
                 (y1 + tickSize * js_sin js (angle - js_PI js / 6)));
    path (moveTo x2 y2);
    path (lineTo (x2 - tickSize * js_cos js (angle + js_PI js / 6))
                 (y2 - tickSize * js_sin js (angle + js_PI js / 6)));
    path (moveTo x2 y2);
    path (lineTo (x2 - tickSize * js_cos js (angle - js_PI js / 6))
                 (y2 - tickSize * js_sin js (angle - js_PI js / 6)));
    stroke ] ++
  (if isVertical then
     [ save;
       translate (x1 - dimFontSize * 1.5) ((y1 + y2) / 2);
       rotate (- js_PI js / 2);
       fillText text 0 0;
       restore ]
   else
     [ fillText text ((x1 + x2) / 2) (y1 - dimFontSize) ]).

(** Lines 299-318: one turn of the loop over the dimension lines. *)
Definition draw_dimension (R scale maxRun dimFontSize : Q)
           (st : DimLoop) (flight : FlightData) : DimLoop :=
  let startY := - accumulatedRise st in
  let accumulatedRise := accumulatedRise st + rise flight * scale in
  let endY := - accumulatedRise in
  let dimX_vert_offset := dimFontSize * 3 in
  let dimX_vert :=
    if (dimDirection st =? 1)%Z then - dimX_vert_offset
    else (maxRun * scale) + dimX_vert_offset in
  let dashOn := Qmax 1 (0.01 * scale) in
  let dashOff := Qmax 1 (0.015 * scale) in
  {| accumulatedRise := accumulatedRise;
     dimDirection := (dimDirection st * -1)%Z;
     dim_drawn :=
       dim_drawn st ++
       drawDimLine R scale dimFontSize dimX_vert startY dimX_vert endY
                   (js_toFixed js (rise flight * 1000) 0) true ++
       [ beginPath;
         path (moveTo dimX_vert startY);
         path (lineTo (if (dimDirection st =? 1)%Z then 0
                       else maxRun * scale) startY);
         path (moveTo dimX_vert endY);
         path (lineTo (if (dimDirection st =? 1)%Z then maxRun * scale
                       else 0) endY);
         setLineDash [dashOn; dashOff];
         stroke;
         setLineDash [] ] |}.

(** The loop of lines 134-255 over the flights with their indices. *)
Definition flights_pass (data : StairMetrics) (zoom scale maxRun : Q)
           (flights : list FlightData) (init : FlightLoop) : FlightLoop :=
  fold_left
    (fun st '(f, flight) => draw_flight data zoom scale maxRun st f flight)
    (combine (seq 0 (length flights)) flights) init.

(** Lines 73-320. *)
Definition draw (zoom : Q) (offset : View.Point)
           (data : option StairMetrics) (width height : Q) : list Cmd :=
  match data with
  | None => background width height ++ [restore]
  | Some data =>
      let cmds := background width height in
      match flights_data data with
      | [] => cmds ++ [restore]
      | first :: others =>
          if Qeq_bool (R data) 0 || Qeq_bool (T data) 0 then cmds ++ [restore]
          else
            let totalRise := totalRise (flights_data data) in
            let maxRun := maxRun first others in
            let totalDrawingWidth := maxRun + LD data in
            if Qeq_bool totalDrawingWidth 0 || Qeq_bool totalRise 0
            then cmds ++ [restore]
            else
              let padding_bottom := 40 in
              let padding_left := 80 in
              let baseScale :=
                baseScale width height totalDrawingWidth totalRise in
              let scale := baseScale * zoom in
              let floorSlabThickness := LT data * scale in
              let floorSlabWidth := LD data * scale in
              let cmds :=
                cmds ++
                [ translate (View.x offset) (View.y offset);
                  translate padding_left (height - padding_bottom);
                  beginPath;
                  path (rect 0 0 (- floorSlabWidth) floorSlabThickness);
                  set_fillStyle fillStyle; set_strokeStyle strokeStyle;
                  set_lineWidth (1.5 / zoom);
                  fill; stroke ] in
              let st :=
                flights_pass data zoom scale maxRun (flights_data data)
                  {| currentY := 0; direction := 1;
                     totalTreadCountSoFar := 0; finalX := 0; finalY := 0;
                     drawn := cmds |} in
              let dimLineWidth := Qmax 0.5 (0.002 * scale) in
              let dimFontSize := Qmax 2 (R data * 0.4 * scale) in
              let cmds :=
                drawn st ++
                [ beginPath;
                  path (rect (finalX st) (finalY st)
                             (- floorSlabWidth) floorSlabThickness);
                  set_fillStyle fillStyle; set_strokeStyle strokeStyle;
                  set_lineWidth (1.5 / zoom);
                  fill; stroke;
                  set_strokeStyle "#6b7280"; set_fillStyle "#A0AEC0";
                  set_lineWidth dimLineWidth;
                  set_font (js_toString js dimFontSize ++ "px sans-serif");
                  set_textAlign "center"; set_textBaseline "middle" ] in
              let dims :=
                fold_left (draw_dimension (R data) scale maxRun dimFontSize)
                          (flights_data data)
                          {| accumulatedRise := 0; dimDirection := 1;
                             dim_drawn := cmds |} in
              dim_drawn dims ++ [restore]
      end
  end.

End Draw.

(** What a trace leaves on the state stack of the canvas: [None] when a
    [restore] comes without a [save] before it. *)
Fixpoint stack_depth (depth : nat) (cmds : list Cmd) : option nat :=
  match cmds with
  | [] => Some depth
  | save :: rest => stack_depth (S depth) rest
  | restore :: rest =>
      match depth with
      | O => None
      | S d => stack_depth d rest
      end
  | _ :: rest => stack_depth depth rest
  end.

(** A piece of a trace that leaves the state stack as it finds it. *)
Definition neutral (cmds : list Cmd) : Prop :=
  forall depth, stack_depth depth cmds = Some depth.

(** The rectangles added to the current path. *)
Definition rectangles (cmds : list Cmd) : nat :=
  length (filter (fun c => match c with path (rect _ _ _ _) => true
                                      | _ => false end) cmds).

(** A piece that is quiet on both counts. *)
Definition plain (cmds : list Cmd) : Prop :=
  neutral cmds /\ rectangles cmds = O.

(** The inputs for which [draw] stops after the background. *)
Definition nothing_to_draw (data : StairMetrics) : Prop :=
  match flights_data data with
  | [] => True
  | first :: others =>
      R data == 0 \/ T data == 0 \/
      maxRun first others + LD data == 0 \/
      totalRise (flights_data data) == 0
  end.

(** The flight indices below [num_landings]. *)
Definition landings_drawn (data : StairMetrics) : nat :=
  length (filter (fun f => (Z.of_nat f <? num_landings data)%Z)
                 (seq 0 (length (flights_data data)))).

End Canvas.

(** ** Counting the flights *)

(** The riser count of the flight at index [i] (line 60). *)
Definition risers_at (base extra i : Z) : Z :=
  (base + (if (i <? extra)%Z then 1 else 0))%Z.

(** The counter values [i, i+1, ..., i+count-1]. *)
Fixpoint Zrange (i : Z) (count : nat) : list Z :=
  match count with
  | O => []
  | S count' => i :: Zrange (i + 1)%Z count'
  end.

(** ** JavaScript numbers as doubles

    A JavaScript number is an IEEE 754 binary64 value: [NaN], an
    infinity, a signed zero, or a finite nonzero value, here the rational
    it denotes.  ECMAScript defines [+], [-], [*] and [/] on finite
    operands as the exact result rounded to the nearest double, a tie
    going to the even significand; [F] is that rounding.  The engine
    below is [calculateStairMetrics] over these numbers, operation for
    operation. *)

Module IEEE.

Inductive number : Type :=
| NaN
| Infinity (negative : bool)
| Zero (negative : bool)
| Finite (q : Q).

(** [n / d < 2 ^ e] *)
Definition below_pow2 (n d : positive) (e : Z) : bool :=
  if (0 <=? e)%Z then (Zpos n <? Zpos d * 2 ^ e)%Z
  else (Zpos n * 2 ^ (- e) <? Zpos d)%Z.

(** The binary exponent of [n / d]: the [e] with
    [2 ^ e <= n / d < 2 ^ (e + 1)]. *)
Definition ilog2 (n d : positive) : Z :=
  let e := (Z.log2 (Zpos n) - Z.log2 (Zpos d))%Z in
  if below_pow2 n d e then (e - 1)%Z else e.

(** The exponent of the last place of the doubles around [n / d]:
    53 significant bits, and no exponent below that of the subnormals. *)
Definition ulp_exponent (n d : positive) : Z :=
  Z.max (ilog2 n d - 52) (-1074).

(** [N / D] to the nearest integer, a tie going to the even one. *)
Definition nearest_even (N D : Z) : Z :=
  match (2 * (N mod D) ?= D)%Z with
  | Lt => (N / D)%Z
  | Gt => (N / D + 1)%Z
  | Eq => if Z.even (N / D) then (N / D)%Z else (N / D + 1)%Z
  end.

(** [n / d] in units of [2 ^ u], rounded. *)
Definition significand (n d : positive) (u : Z) : Z :=
  if (u <=? 0)%Z then nearest_even (Zpos n * 2 ^ (- u)) (Zpos d)
  else nearest_even (Zpos n) (Zpos d * 2 ^ u).

(** [M * 2 ^ u] *)
Definition scaled (M u : Z) : Q :=
  if (0 <=? u)%Z then inject_Z (M * 2 ^ u) else M # Pos.pow 2 (Z.to_pos (- u)).

(** The double nearest to [n / d], with the given sign: a zero when the
    quotient underflows, an infinity when it rounds to [2 ^ 1024] or
    more. *)
Definition round_magnitude (negative : bool) (n d : positive) : number :=
  let u := ulp_exponent n d in
  let M := significand n d u in
  if (M =? 0)%Z then Zero negative
  else if (971 <? u)%Z || ((u =? 971)%Z && (2 ^ 53 <=? M)%Z) then Infinity negative
  else Finite (Qred (scaled (if negative then - M else M) u)).

(** The double nearest to a rational; numeric literals and the fields the
    form parses are read through it. *)
Definition F (q : Q) : number :=
  match Qnum q with
  | Z0 => Zero false
  | Zpos n => round_magnitude false n (Qden q)
  | Zneg n => round_magnitude true n (Qden q)
  end.

Definition sign (x : number) : bool :=
  match x with
  | NaN => false
  | Infinity s | Zero s => s
  | Finite q => (Qnum q <? 0)%Z
  end.

(** Unary [-]. *)
Definition neg (x : number) : number :=
  match x with
  | NaN => NaN
  | Infinity s => Infinity (negb s)
  | Zero s => Zero (negb s)
  | Finite q => Finite (- q)
  end.

(** [x + y] *)
Definition add (x y : number) : number :=
  match x, y with
  | NaN, _ | _, NaN => NaN
  | Infinity s, Infinity t => if Bool.eqb s t then x else NaN
  | Infinity _, _ => x
  | _, Infinity _ => y
  | Zero s, Zero t => Zero (s && t)
  | Zero _, Finite _ => y
  | Finite _, Zero _ => x
  | Finite a, Finite b => F (a + b)
  end.

(** [x - y] *)
Definition sub (x y : number) : number := add x (neg y).

(** [x * y] *)
Definition mul (x y : number) : number :=
  match x, y with
  | NaN, _ | _, NaN => NaN
  | Infinity _, Zero _ | Zero _, Infinity _ => NaN
  | Infinity _, _ | _, Infinity _ => Infinity (xorb (sign x) (sign y))
  | Zero _, _ | _, Zero _ => Zero (xorb (sign x) (sign y))
  | Finite a, Finite b => F (a * b)
  end.

(** [x / y] *)
Definition div (x y : number) : number :=
  match x, y with
  | NaN, _ | _, NaN => NaN
  | Infinity _, Infinity _ | Zero _, Zero _ => NaN
  | Infinity _, _ | _, Zero _ => Infinity (xorb (sign x) (sign y))
  | Zero _, _ | _, Infinity _ => Zero (xorb (sign x) (sign y))
  | Finite a, Finite b => F (a / b)
  end.

(** The order of the numbers; [NaN] compares with nothing and the two
    zeros are equal. *)
Definition compare (x y : number) : option comparison :=
  match x, y with
  | NaN, _ | _, NaN => None
  | Infinity s, Infinity t =>
      Some (if s then if t then Eq else Lt else if t then Gt else Eq)
  | Infinity s, _ => Some (if s then Lt else Gt)
  | _, Infinity t => Some (if t then Gt else Lt)
  | Zero _, Zero _ => Some Eq
  | Zero _, Finite b => Some (0 ?= b)
  | Finite a, Zero _ => Some (a ?= 0)
  | Finite a, Finite b => Some (a ?= b)
  end.

(** [x < y] *)
Definition lt (x y : number) : bool :=
  match compare x y with Some Lt => true | _ => false end.

(** [x <= y] *)
Definition le (x y : number) : bool :=
  match compare x y with Some Lt | Some Eq => true | _ => false end.

(** [x === y] *)
Definition eq (x y : number) : bool :=
  match compare x y with Some Eq => true | _ => false end.

(** The double of an integer that has one: every integer up to [2 ^ 53]
    in size does. *)
Definition of_Z (z : Z) : number :=
  if (z =? 0)%Z then Zero false else Finite (inject_Z z).

(** [Math.round]: the nearest integer, a tie going towards plus infinity;
    a result of zero keeps the sign of the argument. *)
Definition Math_round (x : number) : number :=
  match x with
  | Finite q =>
      let z := Qfloor (q + (1 # 2)) in
      if (z =? 0)%Z then Zero (sign x) else Finite (inject_Z z)
  | _ => x
  end.

Definition Math_floor (x : number) : number :=
  match x with
  | Finite q => of_Z (Qfloor q)
  | _ => x
  end.

Definition Math_ceil (x : number) : number :=
  match x with
  | Finite q =>
      let z := Qceiling q in
      if (z =? 0)%Z then Zero (sign x) else Finite (inject_Z z)
  | _ => x
  end.

(** [Math.min] of two numbers; [-0] is below [+0]. *)
Definition Math_min (x y : number) : number :=
  match x, y with
  | NaN, _ | _, NaN => NaN
  | Zero false, Zero true => y
  | _, _ => if lt y x then y else x
  end.

Definition truncate (q : Q) : Z :=
  if Qle_bool 0 q then Qfloor q else Qceiling q.

(** [n % d]: the remainder of the truncated division; it is exact and
    takes the sign of the dividend. *)
Definition rem (n d : number) : number :=
  match n, d with
  | NaN, _ | _, NaN => NaN
  | Infinity _, _ => NaN
  | _, Infinity _ => n
  | _, Zero _ => NaN
  | Zero _, _ => n
  | Finite a, Finite b =>
      let r := a - b * inject_Z (truncate (a / b)) in
      if Qeq_bool r 0 then Zero (sign n) else F r
  end.

(** The exact value of a finite number. *)
Definition value (x : number) : Q :=
  match x with
  | Finite q => q
  | _ => 0
  end.

Definition is_zero (x : number) : bool :=
  match x with
  | Zero _ => true
  | _ => false
  end.

Definition finite (x : number) : bool :=
  match x with
  | Zero _ | Finite _ => true
  | _ => false
  end.

(** The square root rounded to the nearest double, which is what the
    engines' [Math.sqrt] computes; it instantiates the parameter when the
    engine is run on concrete inputs. *)
Definition sqrt_magnitude (n d : positive) : number :=
  let u := (ilog2 n d / 2 - 52)%Z in
  let N := if (u <=? 0)%Z then (Zpos n * 4 ^ (- u))%Z else Zpos n in
  let D := if (u <=? 0)%Z then Zpos d else (Zpos d * 4 ^ u)%Z in
  let M0 := Z.sqrt (N / D) in
  let M :=
    match (4 * N ?= (2 * M0 + 1) * (2 * M0 + 1) * D)%Z with
    | Lt => M0
    | Gt => (M0 + 1)%Z
    | Eq => if Z.even M0 then M0 else (M0 + 1)%Z
    end in
  Finite (Qred (scaled M u)).

Definition sqrt_nearest (x : number) : number :=
  match x with
  | NaN | Infinity true => NaN
  | Infinity false | Zero _ => x
  | Finite q =>
      match Qnum q with
      | Zpos n => sqrt_magnitude n (Qden q)
      | _ => NaN
      end
  end.

(** The number a [spec_float] of the standard library denotes, and the
    double nearest to an integer as the standard library rounds it: they
    let [F] and the operations above be compared with [SFadd], [SFmul],
    [SFdiv] and [SFsqrt] at binary64. *)
Definition of_spec_float (x : SpecFloat.spec_float) : number :=
  match x with
  | SpecFloat.S754_nan => NaN
  | SpecFloat.S754_infinity s => Infinity s
  | SpecFloat.S754_zero s => Zero s
  | SpecFloat.S754_finite s m e =>
      Finite (Qred (scaled (if s then Zneg m else Zpos m) e))
  end.

Definition binary64_of_Z (z : Z) : SpecFloat.spec_float :=
  SpecFloat.binary_normalize 53 1024 z 0 false.

(** A stand-in for [x ** y] on the only exponent the engine uses, 2. *)
Definition square (x y : number) : number := mul x x.

Record StairInputParams : Type := {
  height : number;
  stairWidth : number;
  riser : number;
  tread : number;
  slabThick : number;
  landingLength : number;
  landingDepth : number;
  landingThick : number
}.

Record FlightData : Type := {
  risers : number;
  treads : number;
  run : number;
  rise : number;
  inclined_length : number
}.

Record StairMetrics : Type := {
  num_flights : number;
  num_landings : number;
  total_treads : number;
  total_volume : number;
  total_formwork_area : number;
  formwork_bottom_slab : number;
  formwork_landing_bottom : number;
  formwork_risers : number;
  formwork_above_slab : number;
  volume_waist_slabs : number;
  volume_landings : number;
  volume_steps : number;
  flights_data : list FlightData;
  R : number;
  T : number;
  ST : number;
  LD : number;
  LT : number
}.

(** The accumulators of the [forEach] pass (lines 70-81). *)
Record Totals : Type := {
  total_inclined_length : number;
  acc_volume_waist_slabs : number;
  acc_volume_steps : number;
  acc_total_treads : number
}.

Section Engine.

(** [Math.sqrt] and [**] are implementation-approximated in ECMAScript;
    they are parameters. *)
Variable Math_sqrt : number -> number.
Variable exponentiate : number -> number -> number.

(** Line 26. *)
Definition total_risers_of (H R : number) : number := Math_round (div H R).

(** Lines 29-44. *)
Definition banded_num_flights (H total_risers : number) : number :=
  if eq total_risers (Zero false) then Zero false
  else if le H (F 5.7) then Finite 2
  else if le H (Finite 8) then Finite 4
  else if le H (Finite 12) then Finite 6
  else Math_ceil (div total_risers (Finite 18)).

(** Lines 48-50. *)
Definition clamp_num_flights (num_flights total_risers : number) : number :=
  if lt (Zero false) total_risers then Math_min num_flights total_risers
  else num_flights.

(** Line 52. *)
Definition num_landings_of (num_flights : number) : number :=
  if lt (Zero false) num_flights then sub num_flights (Finite 1) else Zero false.

(** Line 55. *)
Definition base_risers_per_flight_of (total_risers num_flights : number)
  : number :=
  if lt (Zero false) num_flights then Math_floor (div total_risers num_flights)
  else Zero false.

(** Line 56. *)
Definition extra_risers_of (total_risers num_flights : number) : number :=
  if lt (Zero false) num_flights then rem total_risers num_flights
  else Zero false.

(** Lines 62-66: the flight pushed for a riser count. *)
Definition flight_of (risers T R : number) : FlightData :=
  let treads := sub risers (Finite 1) in
  let run := mul treads T in
  let rise := mul risers R in
  let inclined_length :=
    Math_sqrt (add (exponentiate run (Finite 2))
                   (exponentiate rise (Finite 2))) in
  {| risers := risers; treads := treads; run := run; rise := rise;
     inclined_length := inclined_length |}.

(** The [for] loop of lines 59-67.  The counter is a number as well: past
    [2 ^ 53] the increment no longer changes it, so the loop is given
    fuel, and [None] says that the fuel ran out. *)
Fixpoint flights_loop (fuel : nat) (i num_flights base extra T R : number)
  (flights_data : list FlightData) : option (list FlightData) :=
  match fuel with
  | O => None
  | S fuel' =>
      if lt i num_flights then
        let risers := add base (if lt i extra then Finite 1 else Zero false) in
        if eq risers (Zero false) then
          flights_loop fuel' (add i (Finite 1)) num_flights base extra T R
            flights_data
        else
          flights_loop fuel' (add i (Finite 1)) num_flights base extra T R
            (flights_data ++ [flight_of risers T R])
      else Some flights_data
  end.

(** One turn of the [forEach] of lines 76-81. *)
Definition accumulate (SW ST T R : number) (acc : Totals) (flight : FlightData)
  : Totals :=
  {| total_inclined_length :=
       add (total_inclined_length acc) (inclined_length flight);
     acc_volume_waist_slabs :=
       add (acc_volume_waist_slabs acc)
           (mul (mul (inclined_length flight) SW) ST);
     acc_volume_steps :=
       add (acc_volume_steps acc)
           (mul (div (mul (mul SW T) R) (Finite 2)) (treads flight));
     acc_total_treads := add (acc_total_treads acc) (treads flight) |}.

Definition no_totals : Totals :=
  {| total_inclined_length := Zero false; acc_volume_waist_slabs := Zero false;
     acc_volume_steps := Zero false; acc_total_treads := Zero false |}.

(** The test of line 16. *)
Definition gate (R H T : number) : bool :=
  le R (Zero false) || le H (Zero false) || le T (Zero false).

Definition calculateStairMetrics (fuel : nat) (params : StairInputParams)
  : option StairMetrics :=
  let H := height params in
  let SW := div (stairWidth params) (Finite 1000) in
  let R := div (riser params) (Finite 1000) in
  let T := div (tread params) (Finite 1000) in
  let ST := div (slabThick params) (Finite 1000) in
  let LL := div (landingLength params) (Finite 1000) in
  let LD := div (landingDepth params) (Finite 1000) in
  let LT := div (landingThick params) (Finite 1000) in
  if gate R H T then
    Some {| num_flights := Zero false; num_landings := Zero false;
            total_treads := Zero false; total_volume := Zero false;
            total_formwork_area := Zero false;
            formwork_bottom_slab := Zero false;
            formwork_landing_bottom := Zero false;
            formwork_risers := Zero false; formwork_above_slab := Zero false;
            volume_waist_slabs := Zero false; volume_landings := Zero false;
            volume_steps := Zero false; flights_data := [];
            R := R; T := T; ST := ST; LD := LD; LT := LT |}
  else
    let total_risers := total_risers_of H R in
    let num_flights :=
      clamp_num_flights (banded_num_flights H total_risers) total_risers in
    let num_landings := num_landings_of num_flights in
    let base_risers_per_flight :=
      base_risers_per_flight_of total_risers num_flights in
    let extra_risers := extra_risers_of total_risers num_flights in
    match flights_loop fuel (Zero false) num_flights base_risers_per_flight
            extra_risers T R [] with
    | None => None
    | Some flights_data =>
        let totals := fold_left (accumulate SW ST T R) flights_data no_totals in
        let formwork_bottom_slab :=
          add (mul (total_inclined_length totals) SW)
              (mul (total_inclined_length totals) ST) in
        let formwork_landing_bottom := mul (mul LL LD) num_landings in
        let volume_landings := mul (mul (mul LL LD) LT) num_landings in
        let formwork_risers :=
          mul (add (mul R SW) (div (mul R T) (Finite 2))) total_risers in
        let formwork_above_slab := Zero false in
        let total_volume :=
          add (add (acc_volume_waist_slabs totals) (acc_volume_steps totals))
              volume_landings in
        let total_formwork_area :=
          add (add formwork_bottom_slab formwork_landing_bottom)
              formwork_risers in
        Some {| num_flights := num_flights; num_landings := num_landings;
                total_treads := acc_total_treads totals;
                total_volume := total_volume;
                total_formwork_area := total_formwork_area;
                formwork_bottom_slab := formwork_bottom_slab;
                formwork_landing_bottom := formwork_landing_bottom;
                formwork_risers := formwork_risers;
                formwork_above_slab := formwork_above_slab;
                volume_waist_slabs := acc_volume_waist_slabs totals;
                volume_landings := volume_landings;
                volume_steps := acc_volume_steps totals;
                flights_data := flights_data;
                R := R; T := T; ST := ST; LD := LD; LT := LT |}
    end.

(** *** Spec-side vocabulary *)

(** A valid input as the specification words it: the three fields as
    entered are positive. *)
Definition positive_input (p : StairInputParams) : Prop :=
  lt (Zero false) (riser p) = true /\ lt (Zero false) (height p) = true /\
  lt (Zero false) (tread p) = true.

(** What line 16 lets through as valid: the riser and the tread, once
    divided by 1000, and the height are positive. *)
Definition valid_input (p : StairInputParams) : Prop :=
  lt (Zero false) (div (riser p) (Finite 1000)) = true /\
  lt (Zero false) (height p) = true /\
  lt (Zero false) (div (tread p) (Finite 1000)) = true.

(** round (height / (riser / 1000)), as line 26 computes it. *)
Definition totalRisers (p : StairInputParams) : number :=
  total_risers_of (height p) (div (riser p) (Finite 1000)).

(** The sum of the riser counts, taken exactly. *)
Definition sum_risers (l : list FlightData) : Q :=
  fold_right (fun flight acc => value (risers flight) + acc) 0 l.

(** The least integer not below [a / b]. *)
Definition cdiv (a b : Z) : Z := (- ((- a) / b))%Z.

(** The flights of a report whose [z] risers are spread over [N]
    flights. *)
Definition flights_of (T R : number) (z N : Z) : list FlightData :=
  map (fun j => flight_of (of_Z (risers_at (z / N) (z mod N) j)) T R)
      (Zrange 0 (Z.to_nat N)).

(** A flight whose fields are related as lines 62-66 compute them. *)
Definition built_by_lines_62_66 (T R : number) (flight : FlightData) : Prop :=
  treads flight = sub (risers flight) (Finite 1) /\
  run flight = mul (treads flight) T /\
  rise flight = mul (risers flight) R /\
  inclined_length flight =
    Math_sqrt (add (exponentiate (run flight) (Finite 2))
                   (exponentiate (rise flight) (Finite 2))).




(** The zero literal of lines 17-22. *)
Definition zero_report (R T ST LD LT : number) : StairMetrics :=
  {| num_flights := Zero false; num_landings := Zero false;
     total_treads := Zero false; total_volume := Zero false;
     total_formwork_area := Zero false; formwork_bottom_slab := Zero false;
     formwork_landing_bottom := Zero false; formwork_risers := Zero false;
     formwork_above_slab := Zero false; volume_waist_slabs := Zero false;
     volume_landings := Zero false; volume_steps := Zero false;
     flights_data := []; R := R; T := T; ST := ST; LD := LD; LT := LT |}.

End Engine.

End IEEE.

(** A form input read as doubles: each field is the double nearest to the
    decimal entered. *)
Definition double_input (p : StairInputParams) : IEEE.StairInputParams :=
  {| IEEE.height := IEEE.F (height p);
     IEEE.stairWidth := IEEE.F (stairWidth p);
     IEEE.riser := IEEE.F (riser p);
     IEEE.tread := IEEE.F (tread p);
     IEEE.slabThick := IEEE.F (slabThick p);
     IEEE.landingLength := IEEE.F (landingLength p);
     IEEE.landingDepth := IEEE.F (landingDepth p);
     IEEE.landingThick := IEEE.F (landingThick p) |}.

(** ** The engine on exact numbers *)

Section Engine.

Variable Math_sqrt : Q -> Q.

(** Line 26: [Math.round(H / R)]. *)
Definition total_risers_of (H R : Q) : Z := Math_round (H / R).

(** Lines 27-44: the flight count before the clamp. *)
Definition banded_num_flights (H : Q) (total_risers : Z) : Z :=
  if (total_risers =? 0)%Z then 0%Z
  else if le H 5.7 then 2%Z
  else if le H 8 then 4%Z
  else if le H 12 then 6%Z
  else
    let MAX_RISERS_PER_FLIGHT := 18%Z in
    Math_ceil (num total_risers / num MAX_RISERS_PER_FLIGHT).

(** Lines 48-50: the clamp. *)
Definition clamp_num_flights (num_flights total_risers : Z) : Z :=
  if (0 <? total_risers)%Z then Math_min num_flights total_risers
  else num_flights.

(** Line 55. *)
Definition base_risers_per_flight_of (total_risers num_flights : Z) : Z :=
  if (0 <? num_flights)%Z
  then Math_floor (num total_risers / num num_flights)
  else 0%Z.

(** Line 56. *)
Definition extra_risers_of (total_risers num_flights : Z) : Z :=
  if (0 <? num_flights)%Z then rem total_risers num_flights else 0%Z.

(** Lines 59-67: the loop, with the array it pushes to passed along.  The
    counter [i] runs while [i < num_flights]; [fuel] bounds the number of
    iterations. *)
Fixpoint flights_loop (fuel : nat) (i num_flights : Z)
         (base_risers_per_flight extra_risers : Z) (T R : Q)
         (flights_data : list FlightData) : list FlightData :=
  match fuel with
  | O => flights_data
  | S fuel' =>
      if (i <? num_flights)%Z then
        let risers :=
          (base_risers_per_flight
           + (if (i <? extra_risers)%Z then 1 else 0))%Z in
        if (risers =? 0)%Z then
          flights_loop fuel' (i + 1)%Z num_flights
                       base_risers_per_flight extra_risers T R flights_data
        else
          let treads := (risers - 1)%Z in
          let run := num treads * T in
          let rise := num risers * R in
          let inclined_length := Math_sqrt (run ^ 2 + rise ^ 2) in
          flights_loop fuel' (i + 1)%Z num_flights
                       base_risers_per_flight extra_risers T R
                       (flights_data ++
                          [ {| risers := risers; treads := treads; run := run;
                               rise := rise;
                               inclined_length := inclined_length |} ])
      else flights_data
  end.

(** Lines 76-81: one step of the [forEach] pass. *)
Definition accumulate (SW ST T R : Q) (acc : Totals) (flight : FlightData)
  : Totals :=
  {| acc_inclined_length := acc_inclined_length acc + inclined_length flight;
     acc_volume_waist_slabs :=
       acc_volume_waist_slabs acc + inclined_length flight * SW * ST;
     acc_volume_steps :=
       acc_volume_steps acc + (SW * T * R / 2) * num (treads flight);
     acc_total_treads := (acc_total_treads acc + treads flight)%Z |}.

Definition calculateStairMetrics (params : StairInputParams) : StairMetrics :=
  let H := height params in
  let SW := stairWidth params / 1000 in
  let R := riser params / 1000 in
  let T := tread params / 1000 in
  let ST := slabThick params / 1000 in
  let LL := landingLength params / 1000 in
  let LD := landingDepth params / 1000 in
  let LT := landingThick params / 1000 in
  if le R 0 || le H 0 || le T 0 then
    {| num_flights := 0; num_landings := 0; total_treads := 0;
       total_volume := 0; total_formwork_area := 0;
       formwork_bottom_slab := 0; formwork_landing_bottom := 0;
       formwork_risers := 0; formwork_above_slab := 0;
       volume_waist_slabs := 0; volume_landings := 0; volume_steps := 0;
       flights_data := []; R := R; T := T; ST := ST; LD := LD; LT := LT |}
  else
    let total_risers := total_risers_of H R in
    let num_flights := banded_num_flights H total_risers in
    let num_flights := clamp_num_flights num_flights total_risers in
    let num_landings :=
      if (0 <? num_flights)%Z then (num_flights - 1)%Z else 0%Z in
    let base_risers_per_flight :=
      base_risers_per_flight_of total_risers num_flights in
    let extra_risers := extra_risers_of total_risers num_flights in
    let flights_data :=
      flights_loop (Z.to_nat num_flights) 0 num_flights
                   base_risers_per_flight extra_risers T R [] in
    let totals :=
      fold_left (accumulate SW ST T R) flights_data
                {| acc_inclined_length := 0; acc_volume_waist_slabs := 0;
                   acc_volume_steps := 0; acc_total_treads := 0 |} in
    let volume_waist_slabs := acc_volume_waist_slabs totals in
    let volume_steps := acc_volume_steps totals in
    let total_treads := acc_total_treads totals in
    let total_inclined_length := acc_inclined_length totals in
    let formwork_bottom_slab :=
      (total_inclined_length * SW) + (total_inclined_length * ST) in
    let formwork_landing_bottom := LL * LD * num num_landings in
    let volume_landings := (LL * LD * LT) * num num_landings in
    let formwork_risers := ((R * SW) + (R * T / 2)) * num total_risers in
    let formwork_above_slab := 0 in
    let total_volume := volume_waist_slabs + volume_steps + volume_landings in
    let total_formwork_area :=
      formwork_bottom_slab + formwork_landing_bottom + formwork_risers in
    {| num_flights := num_flights; num_landings := num_landings;
       total_treads := total_treads; total_volume := total_volume;
       total_formwork_area := total_formwork_area;
       formwork_bottom_slab := formwork_bottom_slab;
       formwork_landing_bottom := formwork_landing_bottom;
       formwork_risers := formwork_risers;
       formwork_above_slab := formwork_above_slab;
       volume_waist_slabs := volume_waist_slabs;
       volume_landings := volume_landings; volume_steps := volume_steps;
       flights_data := flights_data;
       R := R; T := T; ST := ST; LD := LD; LT := LT |}.

(** ** Input classes named by the specification *)

Definition invalid_input (p : StairInputParams) : Prop :=
  riser p <= 0 \/ height p <= 0 \/ tread p <= 0.

Definition valid_input (p : StairInputParams) : Prop :=
  0 < riser p /\ 0 < height p /\ 0 < tread p.

(** [round(height / (riser/1000))], as the specification writes it. *)
Definition totalRisers (p : StairInputParams) : Z :=
  Math_round (height p / (riser p / 1000)).

(** Sums over the flight list, as the specification writes them. *)
Definition sum_risers (l : list FlightData) : Z :=
  fold_right Z.add 0%Z (map risers l).

(** Accumulated from 0 in ascending flight order. *)
Definition sum_inclined_length (l : list FlightData) : Q :=
  fold_left Qplus (map inclined_length l) 0.

(** The report of lines 17-22 for given echoed constants. *)
Definition zero_report (R T ST LD LT : Q) : StairMetrics :=
  {| num_flights := 0; num_landings := 0; total_treads := 0;
     total_volume := 0; total_formwork_area := 0;
     formwork_bottom_slab := 0; formwork_landing_bottom := 0;
     formwork_risers := 0; formwork_above_slab := 0;
     volume_waist_slabs := 0; volume_landings := 0; volume_steps := 0;
     flights_data := []; R := R; T := T; ST := ST; LD := LD; LT := LT |}.

(** The flight built for a given riser count (lines 62-66). *)
Definition flight_of (T R : Q) (risers : Z) : FlightData :=
  let treads := (risers - 1)%Z in
  let run := num treads * T in
  let rise := num risers * R in
  {| risers := risers; treads := treads; run := run; rise := rise;
     inclined_length := Math_sqrt (run ^ 2 + rise ^ 2) |}.

(** ** Further sums over the flight list *)

Definition sum_treads (l : list FlightData) : Z :=
  fold_right Z.add 0%Z (map treads l).

(** ** Numbers *)

Lemma le_true_iff x y : le x y = true <-> x <= y.
Proof. apply Qle_bool_iff. Qed.

Lemma le_false_iff x y : le x y = false <-> y < x.
Proof.
  unfold le. split; intro Hxy.
  - apply Qnot_le_lt. intro Hle. apply Qle_bool_iff in Hle. congruence.
  - destruct (Qle_bool x y) eqn:E; [|reflexivity].
    apply Qle_bool_iff in E. exfalso. apply (Qlt_not_le _ _ Hxy E).
Qed.

Lemma milli_nonpos x : x <= 0 <-> x / 1000 <= 0.
Proof.
  destruct x as [n d]. unfold Qdiv, Qle, Qmult, Qinv. simpl. lia.
Qed.

Lemma milli_pos x : 0 < x <-> 0 < x / 1000.
Proof.
  destruct x as [n d]. unfold Qdiv, Qlt, Qmult, Qinv. simpl. lia.
Qed.

Lemma gate_invalid p :
  invalid_input p ->
  le (riser p / 1000) 0 || le (height p) 0 || le (tread p / 1000) 0 = true.
Proof.
  intros [Hr | [Hh | Ht]].
  - apply milli_nonpos, le_true_iff in Hr. rewrite Hr. reflexivity.
  - apply le_true_iff in Hh. rewrite Hh. apply orb_true_iff. left.
    apply orb_true_r.
  - apply milli_nonpos, le_true_iff in Ht. rewrite Ht. apply orb_true_r.
Qed.

Lemma gate_valid p :
  valid_input p ->
  le (riser p / 1000) 0 || le (height p) 0 || le (tread p / 1000) 0 = false.
Proof.
  intros (Hr & Hh & Ht).
  apply milli_pos, le_false_iff in Hr. apply le_false_iff in Hh.
  apply milli_pos, le_false_iff in Ht. rewrite Hr, Hh, Ht. reflexivity.
Qed.

Lemma valid_or_invalid p : valid_input p \/ invalid_input p.
Proof.
  unfold valid_input, invalid_input.
  destruct (Qlt_le_dec 0 (riser p)); [|tauto].
  destruct (Qlt_le_dec 0 (height p)); [|tauto].
  destruct (Qlt_le_dec 0 (tread p)); tauto.
Qed.

Lemma Math_round_nonneg x : 0 <= x -> (0 <= Math_round x)%Z.
Proof.
  intro Hx. unfold Math_round.
  change 0%Z with (Qfloor 0). apply Qfloor_resp_le. lra.
Qed.

Lemma totalRisers_nonneg p : valid_input p -> (0 <= totalRisers p)%Z.
Proof.
  intros (Hr & Hh & _). apply Math_round_nonneg.
  apply milli_pos in Hr. apply Qlt_le_weak.
  apply Qlt_shift_div_l; [exact Hr | lra].
Qed.

Lemma Math_floor_quotient a b : Math_floor (num a / num b) = (a / b)%Z.
Proof. unfold Math_floor, num. symmetry. apply Zdiv_Qdiv. Qed.

Lemma Math_ceil_quotient a b :
  Math_ceil (num a / num b) = (- (- a / b))%Z.
Proof.
  unfold Math_ceil, Qceiling, num. f_equal.
  rewrite (Zdiv_Qdiv (- a) b). apply Qfloor_comp.
  rewrite inject_Z_opp. unfold Qdiv. ring.
Qed.

Lemma Math_ceil_18 a :
  let k := Math_ceil (num a / num 18) in
  (18 * (k - 1) < a <= 18 * k)%Z.
Proof.
  intro k. subst k. rewrite Math_ceil_quotient.
  pose proof (Z.div_mod (- a) 18) as Hdm.
  pose proof (Z.mod_pos_bound (- a) 18) as Hb. lia.
Qed.

(** ** The counter range *)

Lemma Zrange_length i count : length (Zrange i count) = count.
Proof.
  revert i. induction count as [|c IH]; intro i; simpl; [reflexivity|].
  now rewrite IH.
Qed.


Lemma Zrange_bounds i count k :
  In k (Zrange i count) -> (i <= k < i + Z.of_nat count)%Z.
Proof.
  revert i. induction count as [|c IH]; intros i Hin; simpl in Hin.
  - contradiction.
  - destruct Hin as [<- | Hin]; [lia|]. apply IH in Hin. lia.
Qed.

(** ** The loop *)

(** With at least one riser per flight nothing is skipped: the loop pushes
    one flight per counter value, in order, once [fuel] covers the range. *)
Lemma flights_loop_closed T R base extra n :
  (1 <= base)%Z ->
  forall fuel i acc,
    (Z.to_nat (n - i) <= fuel)%nat ->
    flights_loop fuel i n base extra T R acc
    = acc ++ map (fun k => flight_of T R (risers_at base extra k))
                 (Zrange i (Z.to_nat (n - i))).
Proof.
  intros Hbase. induction fuel as [|fuel IH]; intros i acc Hfuel.
  - replace (Z.to_nat (n - i)) with O by lia. simpl. now rewrite app_nil_r.
  - simpl. destruct (Z.ltb_spec i n) as [Hlt | Hge].
    + destruct (Z.eqb_spec (base + (if (i <? extra)%Z then 1 else 0)) 0)
        as [E | _].
      { destruct (i <? extra)%Z; lia. }
      rewrite IH by lia.
      replace (Z.to_nat (n - i)) with (S (Z.to_nat (n - (i + 1)))) by lia.
      cbn [Zrange map]. rewrite <- app_assoc. reflexivity.
    + replace (Z.to_nat (n - i)) with O by lia. simpl. now rewrite app_nil_r.
Qed.

(** ** The forEach pass *)

Lemma fold_accumulate_inclined SW ST T R l acc :
  acc_inclined_length (fold_left (accumulate SW ST T R) l acc)
  = fold_left Qplus (map inclined_length l) (acc_inclined_length acc).
Proof.
  revert acc. induction l as [|f l IH]; intro acc; simpl.
  - reflexivity.
  - rewrite IH. reflexivity.
Qed.

(** ** The report on valid input, field by field *)

Ltac past_gate Hv :=
  unfold calculateStairMetrics; cbv zeta;
  rewrite (gate_valid _ Hv); reflexivity.

Lemma valid_num_flights p :
  valid_input p ->
  num_flights (calculateStairMetrics p)
  = clamp_num_flights (banded_num_flights (height p) (totalRisers p))
                      (totalRisers p).
Proof. intro Hv. past_gate Hv. Qed.

Lemma valid_num_landings p :
  valid_input p ->
  num_landings (calculateStairMetrics p)
  = let n := num_flights (calculateStairMetrics p) in
    if (0 <? n)%Z then (n - 1)%Z else 0%Z.
Proof. intro Hv. past_gate Hv. Qed.

Lemma valid_flights_data p :
  valid_input p ->
  flights_data (calculateStairMetrics p)
  = let n := num_flights (calculateStairMetrics p) in
    flights_loop (Z.to_nat n) 0 n
                 (base_risers_per_flight_of (totalRisers p) n)
                 (extra_risers_of (totalRisers p) n)
                 (tread p / 1000) (riser p / 1000) [].
Proof. intro Hv. past_gate Hv. Qed.

Lemma valid_formwork_bottom_slab p :
  valid_input p ->
  formwork_bottom_slab (calculateStairMetrics p)
  = let SW := stairWidth p / 1000 in
    let ST := slabThick p / 1000 in
    let total_inclined_length :=
      acc_inclined_length
        (fold_left (accumulate SW ST (tread p / 1000) (riser p / 1000))
                   (flights_data (calculateStairMetrics p))
                   {| acc_inclined_length := 0; acc_volume_waist_slabs := 0;
                      acc_volume_steps := 0; acc_total_treads := 0 |}) in
    (total_inclined_length * SW) + (total_inclined_length * ST).
Proof. intro Hv. past_gate Hv. Qed.

Lemma invalid_report p :
  invalid_input p ->
  calculateStairMetrics p
  = zero_report (riser p / 1000) (tread p / 1000) (slabThick p / 1000)
                (landingDepth p / 1000) (landingThick p / 1000).
Proof.
  intro Hi. unfold calculateStairMetrics. cbv zeta.
  rewrite (gate_invalid _ Hi). reflexivity.
Qed.

(** ** Flight and landing topology *)

Lemma banded_pos H tr : (1 <= tr)%Z -> (1 <= banded_num_flights H tr)%Z.
Proof.
  intro Htr. unfold banded_num_flights.
  destruct (Z.eqb_spec tr 0); [lia|].
  destruct (le H 5.7); [lia|]. destruct (le H 8); [lia|].
  destruct (le H 12); [lia|].
  pose proof (Math_ceil_18 tr) as Hc. cbv zeta in *. lia.
Qed.

Lemma clamp_bounds H tr :
  (1 <= tr)%Z ->
  (1 <= clamp_num_flights (banded_num_flights H tr) tr <= tr)%Z.
Proof.
  intro Htr. pose proof (banded_pos H tr Htr) as Hb.
  unfold clamp_num_flights, Math_min.
  destruct (Z.ltb_spec 0 tr); lia.
Qed.

Lemma base_quotient tr n :
  (1 <= n <= tr)%Z ->
  base_risers_per_flight_of tr n = (tr / n)%Z /\ (1 <= tr / n)%Z.
Proof.
  intro Hn. unfold base_risers_per_flight_of.
  destruct (Z.ltb_spec 0 n); [|lia]. rewrite Math_floor_quotient.
  split; [reflexivity|]. apply Z.div_le_lower_bound; lia.
Qed.

Lemma extra_remainder tr n :
  (1 <= n <= tr)%Z ->
  extra_risers_of tr n = (tr mod n)%Z /\ (0 <= tr mod n < n)%Z.
Proof.
  intro Hn. unfold extra_risers_of, rem.
  destruct (Z.ltb_spec 0 n); [|lia].
  rewrite Z.rem_mod_nonneg by lia.
  split; [reflexivity|]. apply Z.mod_pos_bound. lia.
Qed.

Lemma valid_num_flights_bounds p :
  valid_input p -> (0 < totalRisers p)%Z ->
  (1 <= num_flights (calculateStairMetrics p) <= totalRisers p)%Z.
Proof.
  intros Hv Htr. rewrite (valid_num_flights p Hv). apply clamp_bounds. lia.
Qed.

Lemma valid_num_flights_zero p :
  valid_input p -> totalRisers p = 0%Z ->
  num_flights (calculateStairMetrics p) = 0%Z.
Proof.
  intros Hv Htr. rewrite (valid_num_flights p Hv), Htr. reflexivity.
Qed.

(** On valid input with at least one riser the flight list is the image
    of the counter range: one flight per index, none skipped. *)
Lemma valid_flights_closed p :
  valid_input p -> (0 < totalRisers p)%Z ->
  let n := num_flights (calculateStairMetrics p) in
  flights_data (calculateStairMetrics p)
  = map (fun k => flight_of (tread p / 1000) (riser p / 1000)
                    (risers_at (totalRisers p / n) (totalRisers p mod n) k))
        (Zrange 0 (Z.to_nat n)).
Proof.
  intros Hv Htr n. pose proof (valid_num_flights_bounds p Hv Htr) as Hn.
  fold n in Hn. rewrite (valid_flights_data p Hv). cbv zeta. fold n.
  destruct (base_quotient _ _ Hn) as [-> Hb].
  destruct (extra_remainder _ _ Hn) as [-> _].
  rewrite flights_loop_closed by (try exact Hb; rewrite Z.sub_0_r; lia).
  rewrite Z.sub_0_r. reflexivity.
Qed.

Lemma valid_flights_zero p :
  valid_input p -> totalRisers p = 0%Z ->
  flights_data (calculateStairMetrics p) = [].
Proof.
  intros Hv Htr. rewrite (valid_flights_data p Hv). cbv zeta.
  rewrite (valid_num_flights_zero p Hv Htr). reflexivity.
Qed.

(** ** The properties of the specification

    Here are the properties that hold whatever the rounding: C1, C6, C8 and
    C9.  C2, C3, C4, C5, C7 and C10 turn on how the quotient of line 26
    and the counts derived from it round; they are stated over doubles
    further down. *)

(** C1. On every input with [riser <= 0], [height <= 0] or [tread <= 0] the
    engine returns the zero report: the twelve aggregates are exactly 0,
    [flights_data] is empty, and [R], [T], [ST], [LD], [LT] are the
    millimeter inputs divided by 1000.  The engine is a total function, so
    this report is what the call returns. *)
Theorem zero_report_on_invalid_input p :
  riser p <= 0 \/ height p <= 0 \/ tread p <= 0 ->
  calculateStairMetrics p
  = {| num_flights := 0; num_landings := 0; total_treads := 0;
       total_volume := 0; total_formwork_area := 0;
       formwork_bottom_slab := 0; formwork_landing_bottom := 0;
       formwork_risers := 0; formwork_above_slab := 0;
       volume_waist_slabs := 0; volume_landings := 0; volume_steps := 0;
       flights_data := [];
       R := riser p / 1000; T := tread p / 1000; ST := slabThick p / 1000;
       LD := landingDepth p / 1000; LT := landingThick p / 1000 |}.
Proof. intro Hi. exact (invalid_report p Hi). Qed.

(** C6. Landing count: on every input the reported [num_landings] is
    [max(num_flights - 1, 0)]. *)
Theorem landing_count p :
  num_landings (calculateStairMetrics p)
  = Z.max (num_flights (calculateStairMetrics p) - 1) 0.
Proof.
  destruct (valid_or_invalid p) as [Hv | Hi].
  - rewrite (valid_num_landings p Hv). cbv zeta.
    destruct (Z.ltb_spec 0 (num_flights (calculateStairMetrics p))); lia.
  - rewrite (invalid_report p Hi). reflexivity.
Qed.

(** C8. On valid input, with [totalInclinedLength] the sum of
    [inclined_length] over [flights_data], [SW = stairWidth/1000] and
    [ST = slabThick/1000]:
    [formwork_bottom_slab = totalInclinedLength * SW
                            + totalInclinedLength * ST],
    and [formwork_above_slab = 0]. *)
Theorem formwork_bottom_slab_formula p :
  valid_input p ->
  let m := calculateStairMetrics p in
  let totalInclinedLength := sum_inclined_length (flights_data m) in
  let SW := stairWidth p / 1000 in
  let ST := slabThick p / 1000 in
  formwork_bottom_slab m
  = totalInclinedLength * SW + totalInclinedLength * ST /\
  formwork_above_slab m = 0.
Proof.
  intros Hv m til SW ST. split.
  - subst m. rewrite (valid_formwork_bottom_slab p Hv). cbv zeta.
    rewrite fold_accumulate_inclined. reflexivity.
  - subst m. unfold calculateStairMetrics. cbv zeta.
    rewrite (gate_valid _ Hv). reflexivity.
Qed.

(** C9. On every input the reported [num_flights] is the length of
    [flights_data]: on valid input the base riser count is at least 1
    whenever [num_flights > 0], so no loop index yields a zero riser count
    and the skipping branch of the loop is never taken. *)
Theorem num_flights_is_flights_length p :
  let m := calculateStairMetrics p in
  let base := base_risers_per_flight_of (totalRisers p) (num_flights m) in
  let extra := extra_risers_of (totalRisers p) (num_flights m) in
  num_flights m = Z.of_nat (length (flights_data m)) /\
  (valid_input p ->
     ((0 < num_flights m)%Z -> (1 <= base)%Z) /\
     (forall i, (0 <= i < num_flights m)%Z ->
                (base + (if (i <? extra)%Z then 1 else 0))%Z <> 0%Z)).
Proof.
  intros m base extra.
  assert (Hpos : valid_input p -> (0 < num_flights m)%Z ->
                 (1 <= base)%Z).
  { intros Hv Hn. pose proof (totalRisers_nonneg p Hv) as Htr.
    destruct (Z.eq_dec (totalRisers p) 0) as [E | E].
    - subst m. rewrite (valid_num_flights_zero p Hv E) in Hn. lia.
    - assert (Htr' : (0 < totalRisers p)%Z) by lia.
      pose proof (valid_num_flights_bounds p Hv Htr') as Hb.
      destruct (base_quotient _ _ Hb) as [Hq1 Hq2].
      unfold base, m. rewrite Hq1. exact Hq2. }
  split; [|intro Hv; split].
  - destruct (valid_or_invalid p) as [Hv | Hi].
    + pose proof (totalRisers_nonneg p Hv) as Htr.
      destruct (Z.eq_dec (totalRisers p) 0) as [E | E].
      * subst m. rewrite (valid_num_flights_zero p Hv E).
        rewrite (valid_flights_zero p Hv E). reflexivity.
      * assert (Htr' : (0 < totalRisers p)%Z) by lia.
        pose proof (valid_num_flights_bounds p Hv Htr') as Hb.
        pose proof (valid_flights_closed p Hv Htr') as Hc.
        cbv zeta in Hc. unfold m.
        rewrite Hc, length_map, Zrange_length. lia.
    + subst m. rewrite (invalid_report p Hi). reflexivity.
  - exact (Hpos Hv).
  - intros i Hi. assert (Hb : (1 <= base)%Z) by (apply Hpos; [exact Hv|lia]).
    destruct (i <? extra)%Z; lia.
Qed.

(** ** Beyond the specification: the aggregates *)

Lemma fold_accumulate_treads SW ST T R l acc :
  acc_total_treads (fold_left (accumulate SW ST T R) l acc)
  = (acc_total_treads acc + sum_treads l)%Z.
Proof.
  unfold sum_treads. revert acc.
  induction l as [|f l IH]; intro acc; simpl.
  - lia.
  - rewrite IH. simpl. lia.
Qed.

Lemma valid_total_treads p :
  valid_input p ->
  total_treads (calculateStairMetrics p)
  = sum_treads (flights_data (calculateStairMetrics p)).
Proof.
  intro Hv.
  transitivity
    (acc_total_treads
       (fold_left (accumulate (stairWidth p / 1000) (slabThick p / 1000)
                              (tread p / 1000) (riser p / 1000))
                  (flights_data (calculateStairMetrics p))
                  {| acc_inclined_length := 0; acc_volume_waist_slabs := 0;
                     acc_volume_steps := 0; acc_total_treads := 0 |})).
  - past_gate Hv.
  - rewrite fold_accumulate_treads. reflexivity.
Qed.

Lemma report_length p :
  Z.of_nat (length (flights_data (calculateStairMetrics p)))
  = num_flights (calculateStairMetrics p).
Proof.
  destruct (valid_or_invalid p) as [Hv | Hi].
  - pose proof (totalRisers_nonneg p Hv) as Hnn.
    destruct (Z.eq_dec (totalRisers p) 0) as [E | E].
    + rewrite (valid_num_flights_zero p Hv E), (valid_flights_zero p Hv E).
      reflexivity.
    + assert (Htr : (0 < totalRisers p)%Z) by lia.
      pose proof (valid_num_flights_bounds p Hv Htr) as Hn.
      pose proof (valid_flights_closed p Hv Htr) as Hc. cbv zeta in Hc.
      rewrite Hc, length_map, Zrange_length. lia.
  - rewrite (invalid_report p Hi). reflexivity.
Qed.

(** ** Beyond the specification: the flight list *)

Lemma valid_input_ext p p' :
  height p = height p' -> riser p = riser p' -> tread p = tread p' ->
  valid_input p -> valid_input p'.
Proof. unfold valid_input. intros <- <- <-. exact (fun H => H). Qed.

Lemma invalid_input_ext p p' :
  height p = height p' -> riser p = riser p' -> tread p = tread p' ->
  invalid_input p -> invalid_input p'.
Proof. unfold invalid_input. intros <- <- <-. exact (fun H => H). Qed.

(** X8. The flight topology depends on [height], [riser] and [tread] only:
    two inputs that agree on them get the same flight count, landing count,
    tread count and flight list, whatever the other five fields are. *)
Theorem topology_depends_on_height_riser_tread p p' :
  height p = height p' -> riser p = riser p' -> tread p = tread p' ->
  let m := calculateStairMetrics p in
  let m' := calculateStairMetrics p' in
  num_flights m = num_flights m' /\
  num_landings m = num_landings m' /\
  total_treads m = total_treads m' /\
  flights_data m = flights_data m'.
Proof.
  intros Hh Hr Ht m m'. subst m m'.
  destruct (valid_or_invalid p) as [Hv | Hi].
  - pose proof (valid_input_ext p p' Hh Hr Ht Hv) as Hv'.
    assert (Hn : num_flights (calculateStairMetrics p)
                 = num_flights (calculateStairMetrics p')).
    { rewrite (valid_num_flights p Hv), (valid_num_flights p' Hv').
      unfold totalRisers. rewrite Hh, Hr. reflexivity. }
    assert (Hf : flights_data (calculateStairMetrics p)
                 = flights_data (calculateStairMetrics p')).
    { rewrite (valid_flights_data p Hv), (valid_flights_data p' Hv').
      cbv zeta. rewrite Hn. unfold totalRisers. rewrite Hh, Hr, Ht.
      reflexivity. }
    repeat split.
    + exact Hn.
    + rewrite (valid_num_landings p Hv), (valid_num_landings p' Hv').
      cbv zeta. rewrite Hn. reflexivity.
    + rewrite (valid_total_treads p Hv), (valid_total_treads p' Hv'), Hf.
      reflexivity.
    + exact Hf.
  - pose proof (invalid_input_ext p p' Hh Hr Ht Hi) as Hi'.
    rewrite (invalid_report p Hi), (invalid_report p' Hi').
    repeat split.
Qed.

(** ** What the components read from a report *)

Lemma report_num_landings p :
  num_landings (calculateStairMetrics p)
  = Z.max (num_flights (calculateStairMetrics p) - 1) 0.
Proof.
  destruct (valid_or_invalid p) as [Hv | Hi].
  - rewrite (valid_num_landings p Hv). cbv zeta.
    destruct (Z.ltb_spec 0 (num_flights (calculateStairMetrics p))); lia.
  - rewrite (invalid_report p Hi). reflexivity.
Qed.

End Engine.

(** ** The engine on concrete inputs *)

Ltac concrete := vm_compute; repeat split; try reflexivity; try discriminate.

(** [Math.round] breaks a tie towards plus infinity. *)
Example Math_round_tie_up : Math_round 2.5 = 3%Z /\ Math_round 3.5 = 4%Z.
Proof. split; reflexivity. Qed.

Example Math_round_negative_tie : Math_round (- 2.5) = (- 2)%Z.
Proof. reflexivity. Qed.

(** The default form values: 22 risers in two flights of 11, ten treads each,
    run 2.8 m, rise 1.98 m, one landing, twenty treads. *)
Example default_topology :
  let m := calculateStairMetrics Qsqrt_approx default_params in
  totalRisers default_params = 22%Z /\
  num_flights m = 2%Z /\ num_landings m = 1%Z /\ total_treads m = 20%Z /\
  map risers (flights_data m) = [11; 11]%Z /\
  map treads (flights_data m) = [10; 10]%Z.
Proof. repeat split; reflexivity. Qed.

(** The band boundaries. *)
Example band_at_5_7 :
  let p := with_height 5.7 default_params in
  num_flights (calculateStairMetrics Qsqrt_approx p) = 2%Z.
Proof. reflexivity. Qed.

Example band_above_5_7 :
  let p := with_height 5.701 default_params in
  num_flights (calculateStairMetrics Qsqrt_approx p) = 4%Z.
Proof. reflexivity. Qed.

Example band_at_8 :
  let p := with_height 8 default_params in
  num_flights (calculateStairMetrics Qsqrt_approx p) = 4%Z.
Proof. reflexivity. Qed.

Example band_at_12 :
  let p := with_height 12 default_params in
  num_flights (calculateStairMetrics Qsqrt_approx p) = 6%Z.
Proof. reflexivity. Qed.

Example band_above_12 :
  let p := with_height 12.001 (with_riser 179 default_params) in
  totalRisers p = 67%Z /\
  num_flights (calculateStairMetrics Qsqrt_approx p) = 4%Z.
Proof. split; reflexivity. Qed.

(** A single step: one flight of one riser, no landing. *)
Example single_step :
  let p := with_height 0.18 default_params in
  let m := calculateStairMetrics Qsqrt_approx p in
  totalRisers p = 1%Z /\ num_flights m = 1%Z /\ num_landings m = 0%Z /\
  map risers (flights_data m) = [1%Z] /\ map treads (flights_data m) = [0%Z].
Proof. repeat split; reflexivity. Qed.

(** ** The properties at concrete inputs *)

Lemma default_params_valid : valid_input default_params.
Proof. concrete. Defined.

Lemma zero_report_on_invalid_input_witness :
  let p := zero_riser_params in
  (riser p <= 0 \/ height p <= 0 \/ tread p <= 0) /\
  calculateStairMetrics Qsqrt_approx p
  = zero_report (riser p / 1000) (tread p / 1000) (slabThick p / 1000)
                (landingDepth p / 1000) (landingThick p / 1000).
Proof.
  intro p.
  assert (Hi : riser p <= 0 \/ height p <= 0 \/ tread p <= 0)
    by (left; concrete).
  split; [exact Hi|].
  exact (zero_report_on_invalid_input Qsqrt_approx p Hi).
Defined.

Lemma formwork_bottom_slab_formula_witness :
  let p := default_params in
  let m := calculateStairMetrics Qsqrt_approx p in
  valid_input p /\
  formwork_bottom_slab m
  = sum_inclined_length (flights_data m) * (stairWidth p / 1000)
     + sum_inclined_length (flights_data m) * (slabThick p / 1000) /\
  formwork_above_slab m = 0.
Proof.
  intros p m. split; [exact default_params_valid|].
  exact (formwork_bottom_slab_formula Qsqrt_approx p default_params_valid).
Defined.

Lemma num_flights_is_flights_length_witness :
  let p := default_params in
  let m := calculateStairMetrics Qsqrt_approx p in
  valid_input p /\
  num_flights m = Z.of_nat (length (flights_data m)) /\
  (1 <= base_risers_per_flight_of (totalRisers p) (num_flights m))%Z.
Proof.
  intros p m.
  pose proof (num_flights_is_flights_length Qsqrt_approx p) as Hlen.
  cbv zeta in Hlen. destruct Hlen as [Hlen Hbase].
  split; [exact default_params_valid | split; [exact Hlen|]].
  apply (proj1 (Hbase default_params_valid)). reflexivity.
Defined.

(** ** The view state: zoom and pan *)

Lemma Qmin_cases a b :
  (Qmin a b == a /\ a <= b) \/ (Qmin a b == b /\ b <= a).
Proof.
  destruct (Q.min_spec a b) as [[Hlt E] | [Hle E]].
  - left. split; [exact E | lra].
  - right. split; [exact E | exact Hle].
Qed.

Lemma Qmax_cases a b :
  (Qmax a b == a /\ b <= a) \/ (Qmax a b == b /\ a <= b).
Proof.
  destruct (Q.max_spec a b) as [[Hlt E] | [Hle E]].
  - right. split; [exact E | lra].
  - left. split; [exact E | exact Hle].
Qed.

Lemma lt_true_iff a b : View.lt a b = true <-> a < b.
Proof.
  unfold View.lt. rewrite negb_true_iff. split; intro H.
  - apply Qnot_le_lt. intro Hle. apply Qle_bool_iff in Hle. congruence.
  - destruct (Qle_bool b a) eqn:E; [|reflexivity].
    apply Qle_bool_iff in E. lra.
Qed.

Lemma wheel_zoom_in_range z :
  0.2 <= Qmax 0.2 (Qmin z 10) /\ Qmax 0.2 (Qmin z 10) <= 10.
Proof.
  destruct (Qmax_cases 0.2 (Qmin z 10)) as [[E H] | [E H]];
    destruct (Qmin_cases z 10) as [[E' H'] | [E' H']];
    rewrite E; try rewrite E'; split; lra.
Qed.

Lemma dispatch_zoom_in_range s ev :
  View.zoom_in_range s -> View.zoom_in_range (View.dispatch s ev).
Proof.
  unfold View.zoom_in_range. intros [Hlo Hhi].
  destruct ev as [ | | | e | e | | rect e]; cbn [View.dispatch].
  - cbn [View.zoomIn View.setZoom View.zoom].
    destruct (Qmin_cases (View.zoom s * 1.25) 10) as [[E H] | [E H]];
      rewrite E; split; lra.
  - cbn [View.zoomOut View.setZoom View.zoom].
    assert (Hd : View.zoom s / 1.25 == View.zoom s * 0.8) by field.
    destruct (Qmax_cases (View.zoom s / 1.25) 0.2) as [[E H] | [E H]];
      rewrite E; split; lra.
  - cbn. split; lra.
  - unfold View.handleMouseDown.
    destruct (negb (View.button e =? 0)%Z); cbn; split; assumption.
  - unfold View.handleMouseMove.
    destruct (negb (View.isPanning s)); cbn; split; assumption.
  - cbn. split; assumption.
  - unfold View.handleWheel. cbv zeta.
    destruct (View.lt _ _); [split; assumption|].
    cbn [View.setOffset View.setZoom View.zoom].
    apply wheel_zoom_in_range.
Qed.

(** X10. Whatever the sequence of button clicks, mouse events and wheel
    events, the zoom factor stays between 0.2 and 10. *)
Theorem zoom_stays_in_range evs :
  0.2 <= View.zoom (View.run evs) /\ View.zoom (View.run evs) <= 10.
Proof.
  unfold View.run.
  assert (Hgen : forall s, View.zoom_in_range s ->
                           View.zoom_in_range
                             (fold_left View.dispatch evs s)).
  { induction evs as [|ev evs IH]; intros s Hs; simpl.
    - exact Hs.
    - apply IH, dispatch_zoom_in_range, Hs. }
  apply Hgen. split; discriminate.
Qed.

(** X12. At the zoom limits the wheel does nothing: at zoom 10 an event
    that zooms in, and at zoom 0.2 an event that zooms out, leaves the
    whole state, offset included, as it was. *)
Theorem wheel_idle_at_limits rect e s :
  (View.zoom s == 10 /\ View.deltaY e <= 0) \/
  (View.zoom s == 0.2 /\ 0 <= View.deltaY e) ->
  View.handleWheel rect e s = s.
Proof.
  intro Hlim. unfold View.handleWheel. cbv zeta.
  set (nz := Qmax 0.2 (Qmin (View.zoom s * (1 + View.deltaY e * - 0.005)) 10)).
  assert (Hnz : nz == View.zoom s).
  { subst nz.
    assert (Hd : 0 <= View.deltaY e * - 0.005 \/ View.deltaY e * - 0.005 <= 0)
      by (destruct (Qlt_le_dec 0 (View.deltaY e * - 0.005)); [left|right]; lra).
    destruct Hlim as [[Hz Hdy] | [Hz Hdy]].
    - assert (H10 : 10 <= View.zoom s * (1 + View.deltaY e * - 0.005)).
      { rewrite Hz. lra. }
      destruct (Qmin_cases (View.zoom s * (1 + View.deltaY e * - 0.005)) 10)
        as [[E H] | [E H]];
        destruct (Qmax_cases
                    0.2 (Qmin (View.zoom s * (1 + View.deltaY e * - 0.005)) 10))
        as [[E' H'] | [E' H']]; rewrite E'; try rewrite E; lra.
    - assert (H02 : View.zoom s * (1 + View.deltaY e * - 0.005) <= 0.2).
      { rewrite Hz. lra. }
      destruct (Qmin_cases (View.zoom s * (1 + View.deltaY e * - 0.005)) 10)
        as [[E H] | [E H]];
        destruct (Qmax_cases
                    0.2 (Qmin (View.zoom s * (1 + View.deltaY e * - 0.005)) 10))
        as [[E' H'] | [E' H']]; rewrite E'; try rewrite E; lra. }
  assert (Hpos : 0 < View.zoom s) by (destruct Hlim as [[E _] | [E _]]; lra).
  assert (Hf : nz / View.zoom s == 1) by (rewrite Hnz; field; lra).
  assert (Ht : View.lt (Qabs (1 - nz / View.zoom s)) 0.01 = true).
  { apply lt_true_iff. rewrite Hf. reflexivity. }
  rewrite Ht. reflexivity.
Qed.

Lemma moves_while_panning moves s :
  View.isPanning s = true ->
  let s' := fold_left (fun st e => View.handleMouseMove e st) moves s in
  View.isPanning s' = true /\ View.zoom s' = View.zoom s /\
  View.cursor s' = View.cursor s /\
  View.offset s' = View.panned (View.offset s) moves.
Proof.
  unfold View.panned.
  revert s. induction moves as [|e moves IH]; intros s Hp; cbv zeta.
  - simpl. repeat split; try reflexivity; assumption.
  - cbn [fold_left]. unfold View.handleMouseMove at 2 4 6 8.
    rewrite Hp. cbn [negb].
    set (s1 := View.setOffset _ s).
    destruct (IH s1 Hp) as (H1 & H2 & H3 & H4).
    repeat split; assumption.
Qed.

Lemma moves_while_idle moves s :
  View.isPanning s = false ->
  fold_left (fun st e => View.handleMouseMove e st) moves s = s.
Proof.
  intro Hp. induction moves as [|e moves IH]; simpl; [reflexivity|].
  unfold View.handleMouseMove at 2. rewrite Hp. exact IH.
Qed.

(** X14. A drag pans and nothing else: after a left-button press, mouse
    moves, a release and further mouse moves, the offset is the one the
    drag started from with the movement of each move made while the button
    was down added to it in turn, the zoom is unchanged, panning is off
    and the cursor is ["grab"]; moves made after the release count for
    nothing. *)
Theorem drag_pans_by_total_movement s down moves later :
  View.button down = 0%Z ->
  let move := fun st e => View.handleMouseMove e st in
  let s' :=
    fold_left move later
      (View.handleMouseUpOrLeave
         (fold_left move moves (View.handleMouseDown down s))) in
  View.offset s' = View.panned (View.offset s) moves /\
  View.zoom s' = View.zoom s /\
  View.isPanning s' = false /\
  View.cursor s' = "grab"%string.
Proof.
  intros Hb move s'. subst s' move.
  rewrite moves_while_idle by reflexivity.
  assert (Hd : View.handleMouseDown down s
               = View.setCursor "grabbing" (View.setIsPanning true s)).
  { unfold View.handleMouseDown. rewrite Hb. reflexivity. }
  rewrite Hd.
  destruct (moves_while_panning
              moves (View.setCursor "grabbing" (View.setIsPanning true s))
              eq_refl) as (_ & Hz & _ & Ho).
  cbn [View.handleMouseUpOrLeave View.setCursor View.setIsPanning
       View.offset View.zoom View.isPanning View.cursor] in *.
  repeat split; assumption.
Qed.

(** ** The input form *)

Lemma field_name_cases name :
  In name Form.field_names ->
  name = "height"%string \/ name = "stairWidth"%string \/
  name = "riser"%string \/ name = "tread"%string \/
  name = "slabThick"%string \/ name = "landingThick"%string \/
  name = "landingLength"%string \/ name = "landingDepth"%string.
Proof.
  unfold Form.field_names. simpl. intros H.
  repeat (destruct H as [H | H]; [symmetry in H; tauto|]). contradiction.
Qed.

Ltac other_field other name key :=
  destruct (String.eqb_spec other key) as [Eo | _];
  [ destruct (String.eqb_spec name key) as [En | _];
    [ congruence | ]
  | ].

(** X15. A change event on one of the eight inputs stores the parsed number
    in the field of that name, or 0 when the text does not parse or parses
    to zero, and leaves every other field as it was. *)
Theorem input_change_sets_one_field parseFloat name value p :
  In name Form.field_names ->
  let p' := Form.handleInputChange parseFloat name value p in
  Form.get_field name p' = Some (Form.or_zero (parseFloat value)) /\
  (forall other, other <> name ->
                 Form.get_field other p' = Form.get_field other p).
Proof.
  intros Hname p'. subst p'. unfold Form.handleInputChange. split.
  - apply field_name_cases in Hname.
    repeat (destruct Hname as [-> | Hname]; [reflexivity|]).
    subst name. reflexivity.
  - intros other Hneq. clear Hname.
    unfold Form.get_field, Form.set_field.
    cbn [height stairWidth riser tread slabThick landingLength
         landingDepth landingThick].
    other_field other name "height"%string; [reflexivity|].
    other_field other name "stairWidth"%string; [reflexivity|].
    other_field other name "riser"%string; [reflexivity|].
    other_field other name "tread"%string; [reflexivity|].
    other_field other name "slabThick"%string; [reflexivity|].
    other_field other name "landingLength"%string; [reflexivity|].
    other_field other name "landingDepth"%string; [reflexivity|].
    other_field other name "landingThick"%string; reflexivity.
Qed.

(** X16. Clearing the height, riser or tread input, or typing zero or a
    negative number into it, blanks the results: the engine returns the
    zero report for the changed parameters. *)
Theorem cleared_field_blanks_report Math_sqrt parseFloat name value p :
  name = "height"%string \/ name = "riser"%string \/ name = "tread"%string ->
  Form.or_zero (parseFloat value) <= 0 ->
  let p' := Form.handleInputChange parseFloat name value p in
  calculateStairMetrics Math_sqrt p'
  = zero_report (riser p' / 1000) (tread p' / 1000) (slabThick p' / 1000)
                (landingDepth p' / 1000) (landingThick p' / 1000).
Proof.
  intros Hname Hv p'. apply invalid_report. subst p'.
  unfold invalid_input, Form.handleInputChange.
  destruct Hname as [-> | [-> | ->]]; cbn; tauto.
Qed.

(** ** The drawing: state stack and rectangles *)

Lemma stack_depth_app a b depth :
  Canvas.stack_depth depth (a ++ b)
  = match Canvas.stack_depth depth a with
    | Some d => Canvas.stack_depth d b
    | None => None
    end.
Proof.
  revert depth. induction a as [|c a IH]; intro depth; [reflexivity|].
  destruct c; simpl; try apply IH.
  destruct depth; [reflexivity | apply IH].
Qed.

Lemma neutral_nil : Canvas.neutral [].
Proof. intro d. reflexivity. Qed.

Lemma neutral_app a b :
  Canvas.neutral a -> Canvas.neutral b -> Canvas.neutral (a ++ b).
Proof. intros Ha Hb d. rewrite stack_depth_app, Ha. apply Hb. Qed.

Lemma rectangles_app a b :
  Canvas.rectangles (a ++ b)
  = (Canvas.rectangles a + Canvas.rectangles b)%nat.
Proof. unfold Canvas.rectangles. now rewrite filter_app, length_app. Qed.

Lemma plain_app a b : Canvas.plain a -> Canvas.plain b -> Canvas.plain (a ++ b).
Proof.
  intros [Ha Ra] [Hb Rb]. split.
  - now apply neutral_app.
  - rewrite rectangles_app, Ra, Rb. reflexivity.
Qed.

Lemma plain_fold {A : Type} (body : Q * Q * list Canvas.Cmd -> A ->
                                     Q * Q * list Canvas.Cmd) l :
  (forall x y cmds a,
      exists more,
        snd (body (x, y, cmds) a) = cmds ++ more /\ Canvas.plain more) ->
  forall x y cmds,
    exists more, snd (fold_left body l (x, y, cmds)) = cmds ++ more /\
                 Canvas.plain more.
Proof.
  intro Hbody. induction l as [|a l IH]; intros x y cmds; simpl.
  - exists []. split; [now rewrite app_nil_r | split; [apply neutral_nil|]].
    reflexivity.
  - destruct (Hbody x y cmds a) as (m1 & E1 & P1).
    destruct (body (x, y, cmds) a) as [[x' y'] cmds'] eqn:Eb.
    simpl in E1. subst cmds'.
    destruct (IH x' y' (cmds ++ m1)) as (m2 & E2 & P2).
    exists (m1 ++ m2). split.
    + rewrite E2, app_assoc. reflexivity.
    + now apply plain_app.
Qed.

Lemma tread_highlights_plain R T scale direction flight x y :
  Canvas.plain (Canvas.tread_highlights R T scale direction flight x y).
Proof.
  unfold Canvas.tread_highlights, Canvas.for_upto.
  match goal with
  | |- Canvas.plain (snd (fold_left ?body ?l _)) =>
      destruct (plain_fold body l) with (x := x) (y := y)
                                        (cmds := @nil Canvas.Cmd)
        as (more & E & P)
  end.
  - intros x0 y0 cmds _. eexists. split.
    + cbn [snd]. rewrite <- app_assoc. reflexivity.
    + split; [intro d|]; reflexivity.
  - rewrite E. exact P.
Qed.

Lemma step_numbers_plain js R T scale direction flight x y count :
  Canvas.plain (Canvas.step_numbers js R T scale direction flight x y count).
Proof.
  unfold Canvas.step_numbers, Canvas.for_upto. cbv zeta.
  match goal with
  | |- Canvas.plain (snd (fold_left ?body ?l _)) =>
      destruct (plain_fold body l) with (x := x) (y := y)
                                        (cmds := @nil Canvas.Cmd)
        as (more & E & P)
  end.
  - intros x0 y0 cmds i. eexists. split.
    + cbn [snd]. reflexivity.
    + split; [intro d|]; reflexivity.
  - rewrite E. exact P.
Qed.

Lemma drawDimLine_plain js R scale dimFontSize x1 y1 x2 y2 text isVertical :
  Canvas.plain (Canvas.drawDimLine js R scale dimFontSize x1 y1 x2 y2 text
                            isVertical).
Proof.
  unfold Canvas.drawDimLine. cbv zeta.
  destruct isVertical; (split; [intro d|]; reflexivity).
Qed.

(** One turn of the loop over the flights appends to what is drawn; what
    it appends leaves the state stack alone and holds one rectangle when
    the flight index is below [num_landings], none otherwise. *)
Lemma draw_flight_appends js data zoom scale maxRun st f flight :
  exists block,
    Canvas.drawn (Canvas.draw_flight js data zoom scale maxRun st f flight)
    = Canvas.drawn st ++ block /\
    Canvas.neutral block /\
    Canvas.rectangles block
    = (if (Z.of_nat f <? num_landings data)%Z then 1 else 0)%nat.
Proof.
  unfold Canvas.draw_flight. cbv zeta.
  destruct (Canvas.outline _ _ _ _ _ _ _ _) as [[topX topY] shape].
  cbn [Canvas.drawn].
  set (hl := Canvas.tread_highlights _ _ _ _ _ _ _).
  set (sn := Canvas.step_numbers _ _ _ _ _ _ _ _ _).
  destruct (tread_highlights_plain
              (R data) (T data) scale (Canvas.direction st) flight
              (if (Canvas.direction st =? 1)%Z then 0 else maxRun * scale)
              (- Canvas.currentY st)) as [Nhl Rhl].
  fold hl in Nhl, Rhl.
  destruct (step_numbers_plain
              js (R data) (T data) scale (Canvas.direction st) flight
              (if (Canvas.direction st =? 1)%Z then 0 else maxRun * scale)
              (- Canvas.currentY st) (Canvas.totalTreadCountSoFar st))
    as [Nsn Rsn].
  fold sn in Nsn, Rsn. clearbody hl sn.
  destruct (Z.of_nat f <? num_landings data)%Z.
  - eexists. split; [rewrite <- !app_assoc; reflexivity|]. split.
    + repeat (apply neutral_app; try assumption); intro d; reflexivity.
    + rewrite !rectangles_app, Rhl, Rsn. reflexivity.
  - eexists. split; [rewrite <- !app_assoc; reflexivity|]. split.
    + repeat (apply neutral_app; try assumption); intro d; reflexivity.
    + rewrite !rectangles_app, Rhl, Rsn. reflexivity.
Qed.

Lemma flights_pass_appends js data zoom scale maxRun l :
  forall k init,
  exists more,
    Canvas.drawn
      (fold_left
         (fun st '(f, flight) =>
            Canvas.draw_flight js data zoom scale maxRun st f flight)
         (combine (seq k (length l)) l) init)
    = Canvas.drawn init ++ more /\
    Canvas.neutral more /\
    Canvas.rectangles more
    = length (filter (fun f => (Z.of_nat f <? num_landings data)%Z)
                     (seq k (length l))).
Proof.
  induction l as [|flight l IH]; intros k init.
  - exists []. simpl. split; [now rewrite app_nil_r|].
    split; [apply neutral_nil | reflexivity].
  - cbn [length seq combine fold_left filter].
    destruct (draw_flight_appends js data zoom scale maxRun init k flight)
      as (b1 & E1 & N1 & R1).
    destruct (IH (S k) (Canvas.draw_flight js data zoom scale maxRun
                                           init k flight))
      as (b2 & E2 & N2 & R2).
    exists (b1 ++ b2). split; [|split].
    + rewrite E2, E1, app_assoc. reflexivity.
    + now apply neutral_app.
    + rewrite rectangles_app, R1, R2.
      destruct (Z.of_nat k <? num_landings data)%Z; reflexivity.
Qed.

Lemma dimensions_append js R scale maxRun dimFontSize l :
  forall init,
  exists more,
    Canvas.dim_drawn
      (fold_left (Canvas.draw_dimension js R scale maxRun dimFontSize) l init)
    = Canvas.dim_drawn init ++ more /\ Canvas.plain more.
Proof.
  induction l as [|flight l IH]; intro init.
  - exists []. simpl. split; [now rewrite app_nil_r|].
    split; [apply neutral_nil | reflexivity].
  - cbn [fold_left].
    destruct (IH (Canvas.draw_dimension js R scale maxRun dimFontSize
                                        init flight)) as (b2 & E2 & P2).
    eexists. split.
    + rewrite E2. unfold Canvas.draw_dimension. cbv zeta.
      cbn [Canvas.dim_drawn]. rewrite <- !app_assoc. reflexivity.
    + apply plain_app; [apply drawDimLine_plain|].
      apply plain_app; [|exact P2]. split; [intro d|]; reflexivity.
Qed.

Lemma Qeq_bool_false x y : Qeq_bool x y = false <-> ~ x == y.
Proof.
  split.
  - intros E H. apply Qeq_bool_iff in H. congruence.
  - intro H. destruct (Qeq_bool x y) eqn:E; [|reflexivity].
    apply Qeq_bool_iff in E. contradiction.
Qed.

(** The two ways [draw] ends for a report: after the background, or with
    a body between the background and the closing [restore]. *)
Lemma draw_cases js zoom offset data width height :
  (Canvas.nothing_to_draw data /\
   Canvas.draw js zoom offset (Some data) width height
   = Canvas.background width height ++ [Canvas.restore]) \/
  (~ Canvas.nothing_to_draw data /\
   exists body,
     Canvas.draw js zoom offset (Some data) width height
     = Canvas.background width height ++ body ++ [Canvas.restore] /\
     body <> [] /\
     Canvas.neutral body /\
     Canvas.rectangles body = (2 + Canvas.landings_drawn data)%nat).
Proof.
  unfold Canvas.draw, Canvas.nothing_to_draw, Canvas.landings_drawn.
  destruct (flights_data data) as [|first others] eqn:Efl.
  { left. split; [exact I | reflexivity]. }
  destruct (Qeq_bool (R data) 0) eqn:ER.
  { left. apply Qeq_bool_iff in ER. split; [tauto | reflexivity]. }
  destruct (Qeq_bool (T data) 0) eqn:ET.
  { left. apply Qeq_bool_iff in ET. split; [tauto | reflexivity]. }
  cbn [orb]. cbv zeta.
  destruct (Qeq_bool (Canvas.maxRun first others + LD data) 0) eqn:EW.
  { left. apply Qeq_bool_iff in EW. split; [tauto | reflexivity]. }
  destruct (Qeq_bool (Canvas.totalRise (first :: others)) 0) eqn:EH.
  { left. apply Qeq_bool_iff in EH. split; [tauto | reflexivity]. }
  right. apply Qeq_bool_false in ER, ET, EW, EH.
  split; [tauto|]. cbn [orb].
  unfold Canvas.flights_pass.
  match goal with
  | |- context [fold_left (Canvas.draw_dimension js ?r ?sc ?mr ?fs) ?l ?init] =>
      destruct (dimensions_append js r sc mr fs l init)
        as (more2 & E2 & N2 & R2)
  end.
  rewrite E2. cbn [Canvas.dim_drawn].
  match goal with
  | |- context [fold_left ?body (combine (seq 0 (length ?l)) ?l) ?init] =>
      match body with
      | (fun st '(f, flight) =>
           Canvas.draw_flight js ?d ?z ?sc ?mr st f flight) =>
          destruct (flights_pass_appends js d z sc mr l 0%nat init)
            as (more1 & E1 & N1 & R1)
      end
  end.
  rewrite E1. cbn [Canvas.drawn].
  match goal with
  | |- exists body,
        ((((_ ++ ?front) ++ _) ++ ?mid) ++ _) ++ _ = _ /\ _ =>
      exists (front ++ more1 ++ mid ++ more2);
      assert (Rfront : Canvas.rectangles front = 1%nat) by reflexivity;
      assert (Rmid : Canvas.rectangles mid = 1%nat) by reflexivity;
      assert (Nfront : Canvas.neutral front) by (intro d; reflexivity);
      assert (Nmid : Canvas.neutral mid) by (intro d; reflexivity);
      assert (Efront : front <> []) by discriminate;
      set (A := front) in *; set (C := mid) in *; clearbody A C
  end.
  split; [|split; [|split]].
  - rewrite <- !app_assoc. reflexivity.
  - destruct A; [congruence | discriminate].
  - repeat (apply neutral_app; try assumption).
  - rewrite !rectangles_app, R1, R2, Rfront, Rmid. lia.
Qed.

Lemma draw_blank_when js zoom offset data width height :
  Canvas.draw js zoom offset (Some data) width height
  = Canvas.background width height ++ [Canvas.restore]
  <-> Canvas.nothing_to_draw data.
Proof.
  destruct (draw_cases js zoom offset data width height)
    as [[Hn E] | [Hn (body & E & Hne & _)]].
  - tauto.
  - split; [|tauto]. intro Hb. rewrite E in Hb.
    apply app_inv_head in Hb. destruct body; [congruence|].
    destruct body; discriminate.
Qed.

(** X17. [draw] stops after painting the background exactly when there is
    no report, or the report has no flights, or its [R] or [T] is zero, or
    the widest run plus the landing depth is zero, or the rises add up to
    zero. *)
Theorem draw_blank_iff js zoom offset width height :
  Canvas.draw js zoom offset None width height
  = Canvas.background width height ++ [Canvas.restore] /\
  forall data,
    Canvas.draw js zoom offset (Some data) width height
    = Canvas.background width height ++ [Canvas.restore]
    <-> Canvas.nothing_to_draw data.
Proof.
  split; [reflexivity|]. intro data. apply draw_blank_when.
Qed.

(** X18. Whatever is drawn, [draw] leaves the state stack of the canvas as
    it found it: every [restore] has its [save], and none is left open. *)
Theorem draw_balances_save_restore js zoom offset data width height :
  Canvas.stack_depth O (Canvas.draw js zoom offset data width height)
  = Some O.
Proof.
  destruct data as [data|]; [|reflexivity].
  destruct (draw_cases js zoom offset data width height)
    as [[_ E] | [_ (body & E & _ & Hn & _)]]; rewrite E.
  - reflexivity.
  - rewrite stack_depth_app. unfold Canvas.background.
    cbn [Canvas.stack_depth]. rewrite stack_depth_app, Hn. reflexivity.
Qed.

(** ** The drawing of an engine report *)

Lemma count_below limit n :
  forall k,
    Z.of_nat (length (filter (fun f => (Z.of_nat f <? limit)%Z) (seq k n)))
    = Z.max 0 (Z.min (Z.of_nat (k + n)) limit - Z.of_nat k).
Proof.
  induction n as [|n IH]; intro k.
  - simpl. lia.
  - cbn [seq filter]. destruct (Z.ltb_spec (Z.of_nat k) limit).
    + cbn [length]. rewrite Nat2Z.inj_succ, IH. lia.
    + rewrite IH. lia.
Qed.

(** X19. For the engine report of an invalid input (riser, height or
    tread not positive) [draw] stops after the background: the canvas
    shows no stair. *)
Theorem degenerate_report_draws_nothing Math_sqrt js zoom offset p w h :
  riser p <= 0 \/ height p <= 0 \/ tread p <= 0 ->
  Canvas.draw js zoom offset (Some (calculateStairMetrics Math_sqrt p)) w h
  = Canvas.background w h ++ [Canvas.restore].
Proof.
  intros Hi.
  apply (draw_blank_when js zoom offset (calculateStairMetrics Math_sqrt p) w h).
  unfold Canvas.nothing_to_draw.
  rewrite (invalid_report Math_sqrt p Hi). exact I.
Qed.

(** X20. When an engine report is drawn, the trace holds one rectangle for
    each floor slab and one for each landing: [num_flights + 1] in all. *)
Theorem draw_one_rectangle_per_slab Math_sqrt js zoom offset p w h :
  let m := calculateStairMetrics Math_sqrt p in
  ~ Canvas.nothing_to_draw m ->
  Z.of_nat (Canvas.rectangles
              (Canvas.draw js zoom offset (Some m) w h))
  = (num_flights m + 1)%Z /\
  (num_flights m + 1 = num_landings m + 2)%Z.
Proof.
  intros m Hd.
  destruct (draw_cases js zoom offset m w h)
    as [[Hn _] | [_ (body & E & _ & _ & HR)]]; [contradiction|].
  pose proof (report_length Math_sqrt p) as Hlen. fold m in Hlen.
  pose proof (report_num_landings Math_sqrt p) as Hnl. fold m in Hnl.
  assert (Hpos : (1 <= num_flights m)%Z).
  { unfold Canvas.nothing_to_draw in Hd.
    destruct (flights_data m); [exfalso; apply Hd; exact I|].
    simpl in Hlen. lia. }
  split; [|lia].
  rewrite E, !rectangles_app, HR. unfold Canvas.landings_drawn.
  rewrite !Nat2Z.inj_add, count_below.
  change (Canvas.rectangles (Canvas.background w h)) with O.
  change (Canvas.rectangles [Canvas.restore]) with O.
  rewrite Nat.add_0_l, Hlen, Hnl. lia.
Qed.

(** ** The results panel *)

(** X23. The stringer-lengths text is ["N/A"] exactly when the report has
    no flights. *)
Theorem stringer_lengths_na_iff js results :
  Display.stringer_lengths js results = "N/A"%string
  <-> flights_data results = [].
Proof.
  unfold Display.stringer_lengths. cbv zeta.
  destruct (flights_data results) as [|f l].
  - split; reflexivity.
  - split; [|discriminate]. cbn [Display.map_index].
    destruct (Display.map_index _ 1 l); cbn; discriminate.
Qed.

(** ** The further properties at concrete inputs *)

Lemma default_report_drawable :
  ~ Canvas.nothing_to_draw (calculateStairMetrics Qsqrt_approx default_params).
Proof. vm_compute. intros [H | [H | [H | H]]]; discriminate H. Defined.

Lemma topology_depends_on_height_riser_tread_witness :
  let m := calculateStairMetrics Qsqrt_approx default_params in
  let m' := calculateStairMetrics Qsqrt_approx narrow_params in
  height default_params = height narrow_params /\
  riser default_params = riser narrow_params /\
  tread default_params = tread narrow_params /\
  num_flights m = num_flights m' /\
  num_landings m = num_landings m' /\
  total_treads m = total_treads m' /\
  flights_data m = flights_data m'.
Proof.
  intros m m'. split; [reflexivity | split; [reflexivity|]].
  split; [reflexivity|].
  exact (topology_depends_on_height_riser_tread
           Qsqrt_approx default_params narrow_params
           eq_refl eq_refl eq_refl).
Defined.

Lemma wheel_idle_at_limits_witness :
  let s := View.setZoom 10 View.initial in
  let rect := {| View.left := 10; View.top := 20 |} in
  let e := {| View.clientX := 110; View.clientY := 70;
              View.deltaY := - 100 |} in
  (View.zoom s == 10 /\ View.deltaY e <= 0) /\
  View.handleWheel rect e s = s.
Proof.
  intros s rect e.
  assert (H : View.zoom s == 10 /\ View.deltaY e <= 0)
    by (split; [reflexivity | discriminate]).
  split; [exact H|].
  exact (wheel_idle_at_limits rect e s (or_introl H)).
Defined.

Lemma drag_pans_by_total_movement_witness :
  let s := View.initial in
  let down := {| View.button := 0; View.movementX := 0;
                 View.movementY := 0 |} in
  let moves := [ {| View.button := 0; View.movementX := 5;
                    View.movementY := 2 |};
                 {| View.button := 0; View.movementX := 3;
                    View.movementY := - 1 |} ] in
  let later := [ {| View.button := 0; View.movementX := 40;
                    View.movementY := 40 |} ] in
  let move := fun st e => View.handleMouseMove e st in
  let s' :=
    fold_left move later
      (View.handleMouseUpOrLeave
         (fold_left move moves (View.handleMouseDown down s))) in
  View.button down = 0%Z /\
  View.offset s' = View.panned (View.offset s) moves /\
  View.isPanning s' = false.
Proof.
  intros s down moves later move s'.
  assert (Hb : View.button down = 0%Z) by reflexivity.
  destruct (drag_pans_by_total_movement s down moves later Hb)
    as (Ho & _ & Hp & _).
  split; [exact Hb | split; [exact Ho | exact Hp]].
Defined.

Lemma input_change_sets_one_field_witness :
  let p' := Form.handleInputChange Form.parse_digits "riser" "175"
                                   default_params in
  In "riser"%string Form.field_names /\
  Form.get_field "riser" p' = Some 175 /\
  Form.get_field "tread" p' = Some 280.
Proof.
  intro p'.
  assert (Hin : In "riser"%string Form.field_names)
    by (right; right; left; reflexivity).
  destruct (input_change_sets_one_field
              Form.parse_digits "riser" "175" default_params Hin)
    as [Hset Hother].
  split; [exact Hin | split; [exact Hset|]].
  apply (Hother "tread"%string). discriminate.
Defined.

Lemma cleared_field_blanks_report_witness :
  let p' := Form.handleInputChange Form.parse_digits "riser" ""
                                   default_params in
  Form.or_zero (Form.parse_digits "") <= 0 /\
  flights_data (calculateStairMetrics Qsqrt_approx p') = [].
Proof.
  intro p'.
  assert (Hz : Form.or_zero (Form.parse_digits "") <= 0) by discriminate.
  split; [exact Hz|].
  exact (f_equal flights_data
           (cleared_field_blanks_report
              Qsqrt_approx Form.parse_digits "riser" "" default_params
              (or_intror (or_introl eq_refl)) Hz)).
Defined.

Lemma degenerate_report_draws_nothing_witness :
  let p := zero_riser_params in
  let origin := {| View.x := 0; View.y := 0 |} in
  (riser p <= 0 \/ height p <= 0 \/ tread p <= 0) /\
  Canvas.draw sample_builtins 1 origin
              (Some (calculateStairMetrics Qsqrt_approx p)) 800 600
  = Canvas.background 800 600 ++ [Canvas.restore].
Proof.
  intros p origin.
  assert (Hi : riser p <= 0 \/ height p <= 0 \/ tread p <= 0)
    by (left; concrete).
  split; [exact Hi|].
  exact (degenerate_report_draws_nothing
           Qsqrt_approx sample_builtins 1 origin p 800 600 Hi).
Defined.

Lemma draw_one_rectangle_per_slab_witness :
  let m := calculateStairMetrics Qsqrt_approx default_params in
  let origin := {| View.x := 0; View.y := 0 |} in
  ~ Canvas.nothing_to_draw m /\
  Z.of_nat (Canvas.rectangles
              (Canvas.draw sample_builtins 1 origin (Some m) 800 600))
  = (num_flights m + 1)%Z.
Proof.
  intros m origin. split; [exact default_report_drawable|].
  exact (proj1 (draw_one_rectangle_per_slab
                  Qsqrt_approx sample_builtins 1 origin default_params
                  800 600 default_report_drawable)).
Defined.

(** ** The loop over the flights: its final state *)

Lemma flights_pass_state js data zoom scale maxRun l :
  forall k st,
    let st' :=
      fold_left
        (fun st '(f, flight) =>
           Canvas.draw_flight js data zoom scale maxRun st f flight)
        (combine (seq k (length l)) l) st in
    Canvas.totalTreadCountSoFar st'
    = (Canvas.totalTreadCountSoFar st + sum_treads l)%Z /\
    (l <> [] -> (k + length l)%nat = length (flights_data data) ->
     Canvas.finalY st' == - Canvas.currentY st').
Proof.
  induction l as [|flight l IH]; intros k st; cbv zeta.
  - simpl. unfold sum_treads. simpl.
    split; [lia | congruence].
  - cbn [length seq combine fold_left].
    set (st1 := Canvas.draw_flight js data zoom scale maxRun st k flight).
    assert (Ht : Canvas.totalTreadCountSoFar st1
                 = (Canvas.totalTreadCountSoFar st + treads flight)%Z).
    { subst st1. unfold Canvas.draw_flight. cbv zeta.
      destruct (Canvas.outline _ _ _ _ _ _ _ _) as [[topX topY] shape].
      reflexivity. }
    assert (Hf : (S k = length (flights_data data))%nat ->
                 Canvas.finalY st1 == - Canvas.currentY st1).
    { intro Hlast. subst st1. unfold Canvas.draw_flight. cbv zeta.
      destruct (Canvas.outline _ _ _ _ _ _ _ _) as [[topX topY] shape].
      cbn [Canvas.finalY Canvas.currentY].
      replace (Z.of_nat k =? Z.of_nat (length (flights_data data)) - 1)%Z
        with true by (symmetry; apply Z.eqb_eq; lia).
      ring. }
    destruct (IH (S k) st1) as (IHt & IHf). cbv zeta in IHt, IHf.
    split.
    + rewrite IHt, Ht. unfold sum_treads. simpl. lia.
    + intros _ Hlen. destruct l as [|flight' l'].
      * simpl in *. apply Hf. lia.
      * apply IHf; [discriminate | simpl in *; lia].
Qed.

(** X24. After the loop over the flights of an engine report, whatever was
    drawn before it: the step numbering has counted [total_treads] treads,
    and the top floor slab is anchored at minus the height the loop has
    climbed. *)
Theorem flights_pass_final_state Math_sqrt js zoom scale maxRun p cmds :
  let m := calculateStairMetrics Math_sqrt p in
  flights_data m <> [] ->
  let st :=
    Canvas.flights_pass js m zoom scale maxRun (flights_data m)
      {| Canvas.currentY := 0; Canvas.direction := 1;
         Canvas.totalTreadCountSoFar := 0;
         Canvas.finalX := 0; Canvas.finalY := 0;
         Canvas.drawn := cmds |} in
  Canvas.totalTreadCountSoFar st = total_treads m /\
  Canvas.finalY st == - Canvas.currentY st.
Proof.
  intros m Hne st.
  assert (Hv : valid_input p).
  { destruct (valid_or_invalid p) as [Hv | Hi]; [exact Hv|].
    exfalso. apply Hne. unfold m.
    rewrite (invalid_report Math_sqrt p Hi). reflexivity. }
  pose proof (valid_total_treads Math_sqrt p Hv) as Htt. fold m in Htt.
  destruct (flights_pass_state
              js m zoom scale maxRun (flights_data m) O
              {| Canvas.currentY := 0; Canvas.direction := 1;
                 Canvas.totalTreadCountSoFar := 0;
                 Canvas.finalX := 0; Canvas.finalY := 0;
                 Canvas.drawn := cmds |}) as (Ht & Hf).
  cbv zeta in Ht, Hf. fold (Canvas.flights_pass js m zoom scale maxRun
                              (flights_data m)) in Ht, Hf.
  unfold Canvas.flights_pass in st. fold st in Ht, Hf.
  cbn [Canvas.totalTreadCountSoFar] in Ht.
  split.
  - rewrite Ht, Htt. lia.
  - exact (Hf Hne eq_refl).
Qed.

Lemma flights_pass_final_state_witness :
  let m := calculateStairMetrics Qsqrt_approx default_params in
  let st :=
    Canvas.flights_pass sample_builtins m 1 100 2.8 (flights_data m)
      {| Canvas.currentY := 0; Canvas.direction := 1;
         Canvas.totalTreadCountSoFar := 0;
         Canvas.finalX := 0; Canvas.finalY := 0;
         Canvas.drawn := [] |} in
  flights_data m <> [] /\
  Canvas.totalTreadCountSoFar st = total_treads m /\
  Canvas.finalY st == - Canvas.currentY st.
Proof.
  intros m st.
  assert (Hne : flights_data m <> []) by discriminate.
  split; [exact Hne|].
  exact (flights_pass_final_state
           Qsqrt_approx sample_builtins 1 100 2.8 default_params []
           Hne).
Defined.

(** ** The engine on doubles

    The properties that depend on how JavaScript rounds are stated over
    [IEEE.calculateStairMetrics].  Integers up to [2 ^ 53] are doubles and
    their sums, differences, quotients' integer parts and remainders are
    computed exactly; that is what the riser bookkeeping rests on, and it
    is where the bounds on the riser total below come from. *)

Section Doubles.

Import IEEE.

(** [Math.sqrt] and [**] stay parameters. *)
Variable Math_sqrt : number -> number.
Variable exponentiate : number -> number -> number.

(** *** Rounding *)

Lemma nearest_even_cases (N D : Z) :
  (0 < D)%Z ->
  (nearest_even N D = (N / D)%Z /\ (2 * (N mod D) <= D)%Z) \/
  (nearest_even N D = (N / D + 1)%Z /\ (D <= 2 * (N mod D))%Z).
Proof.
  intros HD. unfold nearest_even.
  destruct (Z.compare_spec (2 * (N mod D)) D) as [H | H | H].
  - destruct (Z.even (N / D)); [left | right]; split; lia.
  - left; split; lia.
  - right; split; lia.
Qed.

Lemma nearest_even_exact (N D : Z) :
  (0 < D)%Z -> (N mod D = 0)%Z -> nearest_even N D = (N / D)%Z.
Proof.
  intros HD H. unfold nearest_even. rewrite H.
  destruct (Z.compare_spec (2 * 0) D); lia.
Qed.

(** Rounding a quotient of integers below 2^53 never crosses an integer. *)
Lemma rounded_quotient_floor (a b P M : Z) :
  (0 < b)%Z -> (0 < P)%Z -> (a < 2 ^ 53)%Z -> (2 ^ 52 * b <= a * P)%Z ->
  M = nearest_even (a * P) b ->
  (M / P = a / b)%Z.
Proof.
  intros Hb HP Ha Hlow ->.
  pose proof (Z.div_mod (a * P) b ltac:(lia)) as HN.
  pose proof (Z.mod_pos_bound (a * P) b Hb) as Hr.
  pose proof (Z.div_mod a b ltac:(lia)) as Hq.
  pose proof (Z.mod_pos_bound a b Hb) as Hs.
  pose proof (nearest_even_cases (a * P) b Hb) as HM.
  change (2 ^ 53)%Z with (2 * 2 ^ 52)%Z in Ha.
  assert (H52 : (0 < 2 ^ 52)%Z) by reflexivity.
  generalize dependent (nearest_even (a * P) b).
  generalize dependent ((a * P) mod b)%Z. generalize dependent (a * P / b)%Z.
  generalize dependent (a mod b)%Z. generalize dependent (a / b)%Z.
  generalize dependent (2 ^ 52)%Z.
  intros K Hlow Ha HK Q0 s Hq Hs M0 r HN Hr M HM.
  assert (Hlo : (Q0 * P <= M0)%Z) by nia.
  assert (Hhi : (M0 < (Q0 + 1) * P)%Z) by nia.
  symmetry. apply Z.div_unique with (r := (M - Q0 * P)%Z); [| lia].
  left.
  destruct HM as [[-> _] | [-> Hup]]; [lia |].
  split; [lia |].
  assert (M0 + 1 <> (Q0 + 1) * P)%Z; [| lia].
  intros Heq.
  assert (H1 : ((b - s) * P = b - r)%Z) by nia.
  assert (H2 : (2 * P <= b)%Z) by nia.
  nia.
Qed.

Lemma cdiv_unique (a b c : Z) :
  (0 < b)%Z -> ((c - 1) * b < a <= c * b)%Z -> cdiv a b = c.
Proof.
  intros Hb H. unfold cdiv.
  assert ((- a) / b = - c)%Z; [| lia].
  symmetry. apply Z.div_unique with (r := (c * b - a)%Z); [left; lia | lia].
Qed.

Lemma cdiv_spec (a b : Z) :
  (0 < b)%Z -> ((cdiv a b - 1) * b < a <= cdiv a b * b)%Z.
Proof.
  intros Hb. unfold cdiv.
  pose proof (Z.div_mod (- a) b ltac:(lia)).
  pose proof (Z.mod_pos_bound (- a) b Hb). nia.
Qed.

Lemma rounded_quotient_ceil (a b P M : Z) :
  (0 < b)%Z -> (0 < P)%Z -> (a < 2 ^ 53)%Z -> (2 ^ 52 * b <= a * P)%Z ->
  M = nearest_even (a * P) b ->
  cdiv M P = cdiv a b.
Proof.
  intros Hb HP Ha Hlow ->.
  pose proof (Z.div_mod (a * P) b ltac:(lia)) as HN.
  pose proof (Z.mod_pos_bound (a * P) b Hb) as Hr.
  pose proof (cdiv_spec a b Hb) as Hc.
  pose proof (nearest_even_cases (a * P) b Hb) as HM.
  change (2 ^ 53)%Z with (2 * 2 ^ 52)%Z in Ha.
  assert (H52 : (0 < 2 ^ 52)%Z) by reflexivity.
  apply cdiv_unique; [exact HP |].
  generalize dependent (nearest_even (a * P) b).
  generalize dependent ((a * P) mod b)%Z. generalize dependent (a * P / b)%Z.
  generalize dependent (cdiv a b).
  generalize dependent (2 ^ 52)%Z.
  intros K Hlow Ha HK C0 Hc M0 r HN Hr M HM.
  destruct HM as [[-> Hdown] | [-> Hup]].
  - split; [| nia].
    assert (M0 <> (C0 - 1) * P)%Z; [| nia].
    intros Heq.
    assert (H1 : (r = (a - (C0 - 1) * b) * P)%Z) by nia.
    assert (H2 : (2 * P <= b)%Z) by nia.
    nia.
  - split; [nia |].
    assert (M0 * b < C0 * P * b)%Z by nia.
    nia.
Qed.

Lemma ilog2_quotient (a b : positive) :
  (Zpos b <= Zpos a)%Z ->
  (0 <= ilog2 a b)%Z /\
  (Zpos b * 2 ^ ilog2 a b <= Zpos a < Zpos b * 2 ^ (ilog2 a b + 1))%Z.
Proof.
  intros Hba. unfold ilog2, below_pow2.
  pose proof (Z.log2_spec (Zpos a) ltac:(lia)) as Ha.
  pose proof (Z.log2_spec (Zpos b) ltac:(lia)) as Hb.
  pose proof (Z.log2_le_mono _ _ Hba) as Hmono.
  pose proof (Z.log2_nonneg (Zpos b)) as Hnb.
  set (la := Z.log2 (Zpos a)) in *. set (lb := Z.log2 (Zpos b)) in *.
  replace (0 <=? la - lb)%Z with true by (symmetry; apply Z.leb_le; lia).
  assert (Hsplit : (2 ^ la = 2 ^ lb * 2 ^ (la - lb))%Z)
    by (rewrite <- Z.pow_add_r by lia; f_equal; lia).
  assert (Hsucc : forall k, (0 <= k)%Z -> (2 ^ (k + 1) = 2 * 2 ^ k)%Z)
    by (intros k Hk; rewrite Z.pow_add_r by lia; lia).
  rewrite Z.pow_succ_r in Ha by lia. rewrite Z.pow_succ_r in Hb by lia.
  assert (Hpos : (0 < 2 ^ (la - lb))%Z) by (apply Z.pow_pos_nonneg; lia).
  destruct (Z.ltb_spec (Zpos a) (Zpos b * 2 ^ (la - lb))) as [Hlt | Hge].
  - assert (la - lb <> 0)%Z.
    { intros E0. rewrite E0 in Hlt. change (2 ^ 0)%Z with 1%Z in Hlt. lia. }
    replace (la - lb - 1 + 1)%Z with (la - lb)%Z by lia.
    assert (Hstep : (2 ^ (la - lb) = 2 * 2 ^ (la - lb - 1))%Z).
    { rewrite <- (Hsucc (la - lb - 1)%Z) by lia. f_equal. lia. }
    assert (0 < 2 ^ (la - lb - 1))%Z by (apply Z.pow_pos_nonneg; lia).
    split; [lia |]. split; [nia | lia].
  - rewrite (Hsucc (la - lb)%Z) by lia.
    split; [lia |]. split; [lia | nia].
Qed.

Lemma ilog2_quotient_small (a b : positive) :
  (Zpos b <= Zpos a < 2 ^ 53)%Z -> (ilog2 a b <= 52)%Z.
Proof.
  intros [Hba Ha].
  destruct (ilog2_quotient a b Hba) as [H0 [Hlo _]].
  destruct (Z.le_gt_cases (ilog2 a b) 52) as [| Hgt]; [assumption |].
  exfalso.
  assert (2 ^ 53 <= 2 ^ ilog2 a b)%Z by (apply Z.pow_le_mono_r; lia).
  nia.
Qed.

Lemma scaled_floor (M t : Z) :
  (0 <= t)%Z -> Qfloor (scaled M (- t)) = (M / 2 ^ t)%Z.
Proof.
  intros Ht. unfold scaled.
  destruct (Z.leb_spec 0 (- t)) as [H | H].
  - assert (t = 0)%Z by lia. subst t. change (- 0)%Z with 0%Z.
    change (2 ^ 0)%Z with 1%Z. rewrite Qfloor_Z, Z.mul_1_r, Z.div_1_r. reflexivity.
  - rewrite Z.opp_involutive. unfold Qfloor.
    destruct t as [| p | p]; try lia.
    change (Z.to_pos (Zpos p)) with p. rewrite Pos2Z.inj_pow. reflexivity.
Qed.

Lemma scaled_ceiling (M t : Z) :
  (0 <= t)%Z -> Qceiling (scaled M (- t)) = cdiv M (2 ^ t).
Proof.
  intros Ht. unfold Qceiling, cdiv. f_equal.
  unfold scaled.
  destruct (Z.leb_spec 0 (- t)) as [H | H].
  - assert (t = 0)%Z by lia. subst t. change (- 0)%Z with 0%Z.
    change (2 ^ 0)%Z with 1%Z. rewrite Z.mul_1_r, Z.div_1_r.
    rewrite <- inject_Z_opp. apply Qfloor_Z.
  - rewrite Z.opp_involutive. unfold Qfloor, Qopp. cbn [Qnum Qden].
    destruct t as [| p | p]; try lia.
    change (Z.to_pos (Zpos p)) with p. rewrite Pos2Z.inj_pow. reflexivity.
Qed.

Lemma scaled_value (M t : Z) :
  (0 <= t)%Z -> scaled M (- t) * inject_Z (2 ^ t) == inject_Z M.
Proof.
  intros Ht. unfold scaled.
  destruct (Z.leb_spec 0 (- t)) as [H | H].
  - assert (t = 0)%Z by lia. subst t. change (- 0)%Z with 0%Z.
    change (2 ^ 0)%Z with 1%Z. rewrite Z.mul_1_r. ring.
  - rewrite Z.opp_involutive.
    destruct t as [| p | p]; try lia.
    change (Z.to_pos (Zpos p)) with p.
    unfold Qeq, Qmult, inject_Z. cbn [Qnum Qden].
    rewrite Pos2Z.inj_mul, Pos2Z.inj_pow. ring.
Qed.

(** The rounding of a quotient of two positive integers, the larger
    below 2^53. *)
Lemma round_magnitude_quotient (s : bool) (a b : positive) :
  (Zpos b <= Zpos a < 2 ^ 53)%Z ->
  exists M t,
    (0 <= t)%Z /\
    (2 ^ 52 * Zpos b <= Zpos a * 2 ^ t)%Z /\
    M = nearest_even (Zpos a * 2 ^ t) (Zpos b) /\
    round_magnitude s a b = Finite (Qred (scaled (if s then - M else M)%Z (- t))).
Proof.
  intros [Hba Ha].
  destruct (ilog2_quotient a b Hba) as [H0 [Hlo Hhi]].
  pose proof (ilog2_quotient_small a b (conj Hba Ha)) as H52.
  exists (nearest_even (Zpos a * 2 ^ (52 - ilog2 a b)) (Zpos b)), (52 - ilog2 a b)%Z.
  assert (Hu : ulp_exponent a b = (- (52 - ilog2 a b))%Z)
    by (unfold ulp_exponent; lia).
  assert (Hscale : (2 ^ 52 * Zpos b <= Zpos a * 2 ^ (52 - ilog2 a b))%Z).
  { assert (2 ^ 52 = 2 ^ ilog2 a b * 2 ^ (52 - ilog2 a b))%Z as ->
      by (rewrite <- Z.pow_add_r by lia; f_equal; lia).
    assert (0 < 2 ^ (52 - ilog2 a b))%Z by (apply Z.pow_pos_nonneg; lia).
    nia. }
  repeat split; [lia | exact Hscale |].
  unfold round_magnitude. rewrite Hu.
  unfold significand.
  replace (- (52 - ilog2 a b) <=? 0)%Z with true by (symmetry; apply Z.leb_le; lia).
  rewrite Z.opp_involutive.
  set (M := nearest_even (Zpos a * 2 ^ (52 - ilog2 a b)) (Zpos b)).
  assert (HM : (2 ^ 52 <= M)%Z).
  { assert (2 ^ 52 <= Zpos a * 2 ^ (52 - ilog2 a b) / Zpos b)%Z
      by (apply Z.div_le_lower_bound; lia).
    destruct (nearest_even_cases (Zpos a * 2 ^ (52 - ilog2 a b)) (Zpos b) ltac:(lia))
      as [[E _] | [E _]]; fold M in E; lia. }
  assert (0 < 2 ^ 52)%Z by reflexivity.
  replace (M =? 0)%Z with false by (symmetry; apply Z.eqb_neq; lia).
  replace (971 <? - (52 - ilog2 a b))%Z with false by (symmetry; apply Z.ltb_ge; lia).
  replace (- (52 - ilog2 a b) =? 971)%Z with false by (symmetry; apply Z.eqb_neq; lia).
  reflexivity.
Qed.

Lemma Qred_inject_Z (z : Z) : Qred (inject_Z z) = inject_Z z.
Proof.
  apply Qcanon.Qred_identity. cbn [inject_Z Qnum Qden]. apply Z.gcd_1_r.
Qed.

Lemma Qred_scaled_integer (M t z : Z) :
  (0 <= t)%Z -> M = (z * 2 ^ t)%Z -> Qred (scaled M (- t)) = inject_Z z.
Proof.
  intros Ht ->. rewrite <- Qred_inject_Z. apply Qred_complete.
  pose proof (scaled_value (z * 2 ^ t) t Ht) as H.
  assert (0 < 2 ^ t)%Z by (apply Z.pow_pos_nonneg; lia).
  assert (Hnz : ~ inject_Z (2 ^ t) == 0).
  { intros E. apply (inject_Z_injective (2 ^ t) 0) in E. lia. }
  rewrite inject_Z_mult in H.
  apply (Qmult_inj_r _ _ _ Hnz). exact H.
Qed.

(** Integers below 2^53 are doubles. *)
Lemma round_magnitude_integer (s : bool) (p : positive) :
  (Zpos p < 2 ^ 53)%Z ->
  round_magnitude s p 1 = Finite (inject_Z (if s then Zneg p else Zpos p)).
Proof.
  intros Hp.
  destruct (round_magnitude_quotient s p 1 ltac:(lia)) as (M & t & Ht & _ & HM & ->).
  f_equal.
  rewrite nearest_even_exact in HM by (try lia; apply Z.mod_1_r).
  rewrite Z.div_1_r in HM.
  apply Qred_scaled_integer; [exact Ht |].
  destruct s; subst M; lia.
Qed.

Lemma F_integer (z : Z) :
  (- 2 ^ 53 <= z <= 2 ^ 53)%Z -> F (inject_Z z) = of_Z z.
Proof.
  intros Hz.
  destruct (Z.eq_dec z (2 ^ 53)) as [-> | Hhi]; [vm_compute; reflexivity |].
  destruct (Z.eq_dec z (- 2 ^ 53)) as [-> | Hlo]; [vm_compute; reflexivity |].
  unfold F, of_Z. cbn [inject_Z Qnum Qden].
  destruct z as [| p | p]; [reflexivity | |].
  - apply round_magnitude_integer. lia.
  - apply round_magnitude_integer. lia.
Qed.

Lemma of_Z_pos (z : Z) : (0 < z)%Z -> of_Z z = Finite (inject_Z z).
Proof.
  intros Hz. unfold of_Z.
  replace (z =? 0)%Z with false by (symmetry; apply Z.eqb_neq; lia). reflexivity.
Qed.

Lemma add_of_Z (a b : Z) :
  (- 2 ^ 53 <= a + b <= 2 ^ 53)%Z -> add (of_Z a) (of_Z b) = of_Z (a + b).
Proof.
  intros H. unfold of_Z at 1 2.
  destruct (Z.eqb_spec a 0) as [-> | Ha], (Z.eqb_spec b 0) as [-> | Hb];
    cbn [add andb].
  - reflexivity.
  - unfold of_Z. replace (0 + b =? 0)%Z with false by (symmetry; apply Z.eqb_neq; lia).
    reflexivity.
  - rewrite Z.add_0_r. unfold of_Z.
    replace (a =? 0)%Z with false by (symmetry; apply Z.eqb_neq; lia). reflexivity.
  - rewrite <- inject_Z_plus. apply F_integer. exact H.
Qed.

Lemma sub_of_Z (a b : Z) :
  (- 2 ^ 53 <= a - b <= 2 ^ 53)%Z -> sub (of_Z a) (of_Z b) = of_Z (a - b).
Proof.
  intros H. unfold sub.
  destruct (Z.eqb_spec b 0) as [-> | Hb].
  - rewrite Z.sub_0_r. unfold of_Z. cbn [Z.eqb neg negb].
    destruct (a =? 0)%Z; reflexivity.
  - replace (neg (of_Z b)) with (of_Z (- b)).
    + apply add_of_Z. lia.
    + unfold of_Z.
      replace (- b =? 0)%Z with false by (symmetry; apply Z.eqb_neq; lia).
      replace (b =? 0)%Z with false by (symmetry; apply Z.eqb_neq; lia).
      cbn [neg]. rewrite inject_Z_opp. reflexivity.
Qed.

Lemma compare_of_Z (a b : Z) : compare (of_Z a) (of_Z b) = Some (a ?= b)%Z.
Proof.
  unfold of_Z.
  destruct (Z.eqb_spec a 0) as [-> | Ha], (Z.eqb_spec b 0) as [-> | Hb];
    cbn [compare]; unfold Qcompare; cbn [inject_Z Qnum Qden];
    rewrite ?Z.mul_1_r; reflexivity.
Qed.

Lemma lt_of_Z (a b : Z) : lt (of_Z a) (of_Z b) = (a <? b)%Z.
Proof. unfold lt. rewrite compare_of_Z. unfold Z.ltb. reflexivity. Qed.


Lemma eq_of_Z (a b : Z) : eq (of_Z a) (of_Z b) = (a =? b)%Z.
Proof.
  unfold eq. rewrite compare_of_Z.
  destruct (Z.compare_spec a b), (Z.eqb_spec a b); try reflexivity; lia.
Qed.

Lemma Math_min_of_Z (a b : Z) : Math_min (of_Z a) (of_Z b) = of_Z (Z.min a b).
Proof.
  assert (H : Math_min (of_Z a) (of_Z b)
              = if lt (of_Z b) (of_Z a) then of_Z b else of_Z a).
  { unfold of_Z. destruct (a =? 0)%Z, (b =? 0)%Z; reflexivity. }
  rewrite H, lt_of_Z.
  destruct (Z.ltb_spec b a); f_equal; lia.
Qed.

Lemma div_of_Z (a b : positive) :
  div (of_Z (Zpos a)) (of_Z (Zpos b)) = round_magnitude false a b.
Proof.
  unfold of_Z. cbn [Z.eqb div]. unfold F, Qdiv, Qmult, Qinv.
  cbn [inject_Z Qnum Qden]. cbn [Z.mul Pos.mul].
  rewrite Pos.mul_1_r. reflexivity.
Qed.

Lemma Math_floor_div_of_Z (a b : Z) :
  (0 < b <= a)%Z -> (a < 2 ^ 53)%Z ->
  Math_floor (div (of_Z a) (of_Z b)) = of_Z (a / b).
Proof.
  intros Hb Ha.
  destruct a as [| a | a], b as [| b | b]; try lia.
  rewrite div_of_Z.
  destruct (round_magnitude_quotient false a b ltac:(lia)) as (M & t & Ht & Hlow & HM & ->).
  cbn [Math_floor]. f_equal.
  rewrite (Qfloor_comp _ _ (Qred_correct _)), scaled_floor by exact Ht.
  apply rounded_quotient_floor with (M := M);
    try exact HM; try (apply Z.pow_pos_nonneg; lia); lia.
Qed.

Lemma Math_ceil_div_of_Z (a b : Z) :
  (0 < b <= a)%Z -> (a < 2 ^ 53)%Z ->
  Math_ceil (div (of_Z a) (of_Z b)) = of_Z (cdiv a b).
Proof.
  intros Hb Ha.
  destruct a as [| a | a], b as [| b | b]; try lia.
  rewrite div_of_Z.
  destruct (round_magnitude_quotient false a b ltac:(lia)) as (M & t & Ht & Hlow & HM & ->).
  cbn [Math_ceil].
  rewrite (Qceiling_comp _ _ (Qred_correct _)), scaled_ceiling by exact Ht.
  rewrite (rounded_quotient_ceil (Zpos a) (Zpos b) (2 ^ t) M);
    try exact HM; try (apply Z.pow_pos_nonneg; lia); try lia.
  pose proof (cdiv_spec (Zpos a) (Zpos b) ltac:(lia)).
  unfold of_Z.
  destruct (Z.eqb_spec (cdiv (Zpos a) (Zpos b)) 0) as [E | E]; [nia | reflexivity].
Qed.

Lemma rem_of_Z (a b : Z) :
  (0 < b)%Z -> (0 < a < 2 ^ 53)%Z ->
  rem (of_Z a) (of_Z b) = of_Z (a mod b).
Proof.
  intros Hb Ha.
  rewrite (of_Z_pos a), (of_Z_pos b) by lia. cbn [rem].
  assert (Ht : truncate (inject_Z a / inject_Z b) = (a / b)%Z).
  { unfold truncate.
    assert (0 <= inject_Z a / inject_Z b) as Hq.
    { apply Qle_shift_div_l.
      - pose proof Hb as Hb'. rewrite (Zlt_Qlt 0 b) in Hb'. exact Hb'.
      - rewrite Qmult_0_l. assert (0 <= a)%Z as Ha' by lia.
        rewrite (Zle_Qle 0 a) in Ha'. exact Ha'. }
    apply Qle_bool_iff in Hq. rewrite Hq. symmetry. apply Zdiv_Qdiv. }
  rewrite Ht.
  unfold Qminus. rewrite <- inject_Z_mult, <- inject_Z_opp, <- inject_Z_plus.
  replace (a + - (b * (a / b)))%Z with (a mod b)%Z by (rewrite Z.mod_eq; lia).
  pose proof (Z.mod_pos_bound a b Hb) as Hr.
  pose proof (Z.mod_le a b ltac:(lia) Hb) as Hle.
  unfold of_Z. cbn [sign inject_Z Qnum].
  replace (a <? 0)%Z with false by (symmetry; apply Z.ltb_ge; lia).
  destruct (Z.eqb_spec (a mod b) 0) as [E | E].
  - rewrite E. reflexivity.
  - replace (Qeq_bool (inject_Z (a mod b)) 0) with false.
    + rewrite F_integer by lia. apply of_Z_pos. lia.
    + symmetry. apply not_true_is_false. intros Hq.
      apply Qeq_bool_iff in Hq. apply (inject_Z_injective (a mod b) 0) in Hq. lia.
Qed.

(** *** The engine *)

Lemma double_flights_loop_closed (T R : number) (B E N : Z) :
  (1 <= B < 2 ^ 53)%Z -> (N < 2 ^ 53)%Z ->
  forall fuel i acc, (0 <= i <= N)%Z ->
  flights_loop Math_sqrt exponentiate fuel (of_Z i) (of_Z N) (of_Z B) (of_Z E) T R acc =
    if (Z.to_nat (N - i) <? fuel)%nat
    then Some (acc ++ map (fun j => flight_of Math_sqrt exponentiate
                                      (of_Z (risers_at B E j)) T R)
                        (Zrange i (Z.to_nat (N - i))))
    else None.
Proof.
  intros HB HN. induction fuel as [| fuel IH]; intros i acc Hi.
  - reflexivity.
  - cbn [IEEE.flights_loop]. rewrite lt_of_Z.
    destruct (Z.ltb_spec i N) as [Hlt | Hge].
    + rewrite lt_of_Z.
      change (Finite 1) with (of_Z 1). change (Zero false) with (of_Z 0).
      assert (Hr : add (of_Z B) (if (i <? E)%Z then of_Z 1 else of_Z 0)
                   = of_Z (risers_at B E i)).
      { unfold risers_at. destruct (i <? E)%Z; apply add_of_Z; lia. }
      rewrite Hr, eq_of_Z.
      replace (risers_at B E i =? 0)%Z with false
        by (symmetry; apply Z.eqb_neq; unfold risers_at; destruct (i <? E)%Z; lia).
      rewrite add_of_Z by lia. rewrite IH by lia.
      replace (Z.to_nat (N - i)) with (S (Z.to_nat (N - (i + 1)))) by lia.
      change (S (Z.to_nat (N - (i + 1))) <? S fuel)%nat
        with (Z.to_nat (N - (i + 1)) <? fuel)%nat.
      destruct (Z.to_nat (N - (i + 1)) <? fuel)%nat; [| reflexivity].
      cbn [Zrange map]. rewrite <- app_assoc. reflexivity.
    + replace (N - i)%Z with 0%Z by lia. cbn [Z.to_nat Nat.ltb Nat.leb Zrange map].
      rewrite app_nil_r. reflexivity.
Qed.

Lemma number_compare_antisym (x y : number) :
  compare y x = option_map CompOpp (compare x y).
Proof.
  destruct x as [| s | s | a], y as [| t | t | b]; cbn [compare option_map];
    try reflexivity;
    try (destruct s; reflexivity); try (destruct t; reflexivity);
    try (destruct s, t; reflexivity);
    rewrite <- Qcompare_antisym; reflexivity.
Qed.

Lemma number_lt_not_le (x y : number) : lt x y = true -> le y x = false.
Proof.
  unfold lt, le. rewrite (number_compare_antisym x y).
  destruct (compare x y) as [[| |] |]; cbn; congruence.
Qed.


Lemma double_gate_valid (p : StairInputParams) :
  valid_input p ->
  gate (div (riser p) (Finite 1000)) (height p) (div (tread p) (Finite 1000)) = false.
Proof.
  intros (HR & HH & HT). unfold gate.
  rewrite (number_lt_not_le _ _ HR), (number_lt_not_le _ _ HH), (number_lt_not_le _ _ HT). reflexivity.
Qed.

Lemma double_ceil_18 (z : Z) :
  (0 < z < 2 ^ 53)%Z ->
  Math_ceil (div (of_Z z) (Finite 18)) = of_Z (cdiv z 18).
Proof.
  intros Hz. change (Finite 18) with (of_Z 18).
  destruct (Z.le_gt_cases 18 z) as [Hbig | Hsmall].
  - apply Math_ceil_div_of_Z; lia.
  - assert (H : (z = 1 \/ z = 2 \/ z = 3 \/ z = 4 \/ z = 5 \/ z = 6 \/ z = 7 \/ z = 8
                 \/ z = 9 \/ z = 10 \/ z = 11 \/ z = 12 \/ z = 13 \/ z = 14 \/ z = 15
                 \/ z = 16 \/ z = 17)%Z) by lia.
    repeat (destruct H as [-> | H]; [vm_compute; reflexivity |]).
    subst z. vm_compute. reflexivity.
Qed.

Lemma banded_of_Z (H : number) (z : Z) :
  (0 < z < 2 ^ 53)%Z ->
  exists P, (1 <= P)%Z /\ banded_num_flights H (of_Z z) = of_Z P.
Proof.
  intros Hz. unfold banded_num_flights.
  change (Zero false) with (of_Z 0). rewrite eq_of_Z.
  replace (z =? 0)%Z with false by (symmetry; apply Z.eqb_neq; lia).
  destruct (le H (F 5.7)); [exists 2%Z; split; [lia | reflexivity] |].
  destruct (le H (Finite 8)); [exists 4%Z; split; [lia | reflexivity] |].
  destruct (le H (Finite 12)); [exists 6%Z; split; [lia | reflexivity] |].
  exists (cdiv z 18). split; [| apply double_ceil_18; exact Hz].
  pose proof (cdiv_spec z 18 ltac:(lia)). lia.
Qed.

Lemma clamp_of_Z (H : number) (z : Z) :
  (0 < z < 2 ^ 53)%Z ->
  exists N, (1 <= N <= z)%Z /\
            clamp_num_flights (banded_num_flights H (of_Z z)) (of_Z z) = of_Z N.
Proof.
  intros Hz. destruct (banded_of_Z H z Hz) as (P & HP & ->).
  unfold clamp_num_flights. change (Zero false) with (of_Z 0).
  rewrite lt_of_Z. replace (0 <? z)%Z with true by (symmetry; apply Z.ltb_lt; lia).
  rewrite Math_min_of_Z. exists (Z.min P z). split; [lia | reflexivity].
Qed.

Lemma double_valid_report (p : StairInputParams) (z : Z) :
  gate (div (riser p) (Finite 1000)) (height p) (div (tread p) (Finite 1000)) = false ->
  totalRisers p = of_Z z -> (0 < z < 2 ^ 53)%Z ->
  exists N, (1 <= N <= z)%Z /\
    clamp_num_flights (banded_num_flights (height p) (of_Z z)) (of_Z z) = of_Z N /\
    base_risers_per_flight_of (of_Z z) (of_Z N) = of_Z (z / N) /\
    extra_risers_of (of_Z z) (of_Z N) = of_Z (z mod N) /\
    (forall fuel, (Z.to_nat N < fuel)%nat ->
       exists m, calculateStairMetrics Math_sqrt exponentiate fuel p = Some m) /\
    (forall fuel m,
       calculateStairMetrics Math_sqrt exponentiate fuel p = Some m ->
       num_flights m = of_Z N /\
       num_landings m = of_Z (N - 1) /\
       flights_data m =
         flights_of Math_sqrt exponentiate
           (div (tread p) (Finite 1000)) (div (riser p) (Finite 1000)) z N).
Proof.
  intros Hgate Htr Hz.
  destruct (clamp_of_Z (height p) z Hz) as (N & HN & Hclamp).
  assert (Hbase : base_risers_per_flight_of (of_Z z) (of_Z N) = of_Z (z / N)).
  { unfold base_risers_per_flight_of. change (Zero false) with (of_Z 0).
    rewrite lt_of_Z. replace (0 <? N)%Z with true by (symmetry; apply Z.ltb_lt; lia).
    apply Math_floor_div_of_Z; lia. }
  assert (Hextra : extra_risers_of (of_Z z) (of_Z N) = of_Z (z mod N)).
  { unfold extra_risers_of. change (Zero false) with (of_Z 0).
    rewrite lt_of_Z. replace (0 <? N)%Z with true by (symmetry; apply Z.ltb_lt; lia).
    apply rem_of_Z; lia. }
  assert (Hq : (1 <= z / N <= z)%Z).
  { split.
    - apply Z.div_le_lower_bound; lia.
    - apply Z.div_le_upper_bound; nia. }
  assert (Hloop : forall fuel,
    flights_loop Math_sqrt exponentiate fuel (Zero false) (of_Z N) (of_Z (z / N))
      (of_Z (z mod N)) (div (tread p) (Finite 1000)) (div (riser p) (Finite 1000)) []
    = if (Z.to_nat N <? fuel)%nat
      then Some (flights_of Math_sqrt exponentiate (div (tread p) (Finite 1000))
                   (div (riser p) (Finite 1000)) z N)
      else None).
  { intros fuel. change (Zero false) with (of_Z 0).
    rewrite double_flights_loop_closed by lia. rewrite Z.sub_0_r. reflexivity. }
  exists N. split; [exact HN |]. split; [exact Hclamp |].
  split; [exact Hbase |]. split; [exact Hextra |].
  unfold calculateStairMetrics. rewrite Hgate.
  unfold totalRisers in Htr. rewrite Htr, Hclamp, Hbase, Hextra.
  split.
  - intros fuel Hfuel. rewrite Hloop.
    replace (Z.to_nat N <? fuel)%nat with true by (symmetry; apply Nat.ltb_lt; exact Hfuel).
    eexists. reflexivity.
  - intros fuel m. rewrite Hloop.
    destruct (Z.to_nat N <? fuel)%nat; [| discriminate].
    intros [= <-]. cbn [num_flights num_landings flights_data].
    split; [reflexivity |]. split; [| reflexivity].
    unfold num_landings_of. change (Zero false) with (of_Z 0).
    rewrite lt_of_Z. replace (0 <? N)%Z with true by (symmetry; apply Z.ltb_lt; lia).
    change (Finite 1) with (of_Z 1). apply sub_of_Z. lia.
Qed.








Lemma flights_of_In (T R : number) (z N : Z) (f : FlightData) :
  (1 <= N <= z)%Z ->
  In f (flights_of Math_sqrt exponentiate T R z N) ->
  exists r, (1 <= z / N <= r)%Z /\ (r <= z / N + 1)%Z /\ (r <= z)%Z /\
            f = flight_of Math_sqrt exponentiate (of_Z r) T R.
Proof.
  intros HN Hin. unfold flights_of in Hin.
  apply in_map_iff in Hin. destruct Hin as (j & <- & Hj).
  apply Zrange_bounds in Hj.
  exists (risers_at (z / N) (z mod N) j).
  pose proof (Z.div_mod z N ltac:(lia)).
  pose proof (Z.mod_pos_bound z N ltac:(lia)).
  assert (1 <= z / N)%Z by (apply Z.div_le_lower_bound; lia).
  assert (z / N <= z)%Z by nia.
  assert (0 < z mod N -> z / N + 1 <= z)%Z by nia.
  unfold risers_at.
  destruct (Z.ltb_spec j (z mod N)); repeat split; try reflexivity; lia.
Qed.

(** Whatever the loop pushes was built by lines 62-66. *)
Lemma flights_loop_built (T R base extra n : number) :
  forall fuel i acc l,
    Forall (built_by_lines_62_66 Math_sqrt exponentiate T R) acc ->
    flights_loop Math_sqrt exponentiate fuel i n base extra T R acc = Some l ->
    Forall (built_by_lines_62_66 Math_sqrt exponentiate T R) l.
Proof.
  induction fuel as [| fuel IH]; intros i acc l Hacc; cbn [flights_loop];
    [discriminate |].
  destruct (lt i n); [| intros [= <-]; exact Hacc].
  destruct (eq _ _).
  - apply IH. exact Hacc.
  - apply IH. apply Forall_app. split; [exact Hacc |].
    constructor; [| constructor].
    unfold built_by_lines_62_66. cbn. repeat split; reflexivity.
Qed.

Lemma report_flights_built (fuel : nat) (p : StairInputParams) (m : StairMetrics) :
  calculateStairMetrics Math_sqrt exponentiate fuel p = Some m ->
  Forall (built_by_lines_62_66 Math_sqrt exponentiate (T m) (R m)) (flights_data m).
Proof.
  unfold calculateStairMetrics.
  destruct (gate _ _ _).
  - intros [= <-]. constructor.
  - destruct (flights_loop _ _ _ _ _ _ _ _ _ _) as [l |] eqn:Hloop; [| discriminate].
    intros [= <-]. cbn [flights_data T R].
    eapply flights_loop_built; [| exact Hloop]. constructor.
Qed.


(** With no riser to place the loop body never runs. *)
Lemma no_risers_report (fuel : nat) (p : StairInputParams) :
  gate (div (riser p) (Finite 1000)) (height p) (div (tread p) (Finite 1000)) = false ->
  eq (totalRisers p) (Zero false) = true ->
  exists m, calculateStairMetrics Math_sqrt exponentiate (S fuel) p = Some m /\
    num_flights m = Zero false /\ num_landings m = Zero false /\
    flights_data m = [] /\ total_treads m = Zero false /\
    volume_waist_slabs m = Zero false /\ volume_steps m = Zero false /\
    formwork_above_slab m = Zero false /\
    formwork_bottom_slab m =
      add (mul (Zero false) (div (stairWidth p) (Finite 1000)))
          (mul (Zero false) (div (slabThick p) (Finite 1000))) /\
    formwork_landing_bottom m =
      mul (mul (div (landingLength p) (Finite 1000)) (div (landingDepth p) (Finite 1000)))
          (Zero false) /\
    volume_landings m =
      mul (mul (mul (div (landingLength p) (Finite 1000))
                    (div (landingDepth p) (Finite 1000)))
               (div (landingThick p) (Finite 1000)))
          (Zero false) /\
    formwork_risers m =
      mul (add (mul (div (riser p) (Finite 1000)) (div (stairWidth p) (Finite 1000)))
               (div (mul (div (riser p) (Finite 1000)) (div (tread p) (Finite 1000)))
                    (Finite 2)))
          (totalRisers p) /\
    total_volume m = add (add (Zero false) (Zero false)) (volume_landings m) /\
    total_formwork_area m =
      add (add (formwork_bottom_slab m) (formwork_landing_bottom m)) (formwork_risers m) /\
    R m = div (riser p) (Finite 1000) /\ T m = div (tread p) (Finite 1000) /\
    ST m = div (slabThick p) (Finite 1000) /\ LD m = div (landingDepth p) (Finite 1000) /\
    LT m = div (landingThick p) (Finite 1000).
Proof.
  intros Hgate Hzero. unfold calculateStairMetrics. rewrite Hgate.
  unfold totalRisers in Hzero |- *.
  set (tr := total_risers_of _ _) in *.
  assert (Hn : clamp_num_flights (banded_num_flights (height p) tr) tr = Zero false).
  { unfold banded_num_flights. rewrite Hzero. unfold clamp_num_flights.
    replace (lt (Zero false) tr) with false; [reflexivity |].
    symmetry. unfold eq in Hzero. unfold lt. rewrite (number_compare_antisym tr (Zero false)).
    destruct (compare tr (Zero false)) as [[| |] |]; try discriminate. reflexivity. }
  rewrite Hn. cbn -[add mul div].
  eexists. split; [reflexivity |]. cbn -[add mul div]. repeat split; reflexivity.
Qed.




Lemma mul_zero_r (x : number) (s : bool) :
  finite x = true -> is_zero (mul x (Zero s)) = true.
Proof. destruct x; try discriminate; reflexivity. Qed.

Lemma mul_zero_l (x : number) (s : bool) :
  finite x = true -> is_zero (mul (Zero s) x) = true.
Proof. destruct x; try discriminate; reflexivity. Qed.

Lemma add_zeros (x y : number) :
  is_zero x = true -> is_zero y = true -> is_zero (add x y) = true.
Proof. destruct x, y; try discriminate; reflexivity. Qed.

Lemma eq_zero_Math_round (x : number) :
  eq (Math_round x) (Zero false) = true -> is_zero (Math_round x) = true.
Proof.
  destruct x as [| s | s | q]; cbn [Math_round]; try discriminate.
  - destruct s; discriminate.
  - reflexivity.
  - destruct (Z.eqb_spec (Qfloor (q + (1 # 2))) 0) as [E | E]; [reflexivity |].
    unfold eq. cbn [compare]. unfold Qcompare. cbn [inject_Z Qnum Qden].
    rewrite Z.mul_1_r. cbn [Z.mul].
    destruct (Z.compare_spec (Qfloor (q + (1 # 2))) 0); try discriminate. lia.
Qed.



Lemma treads_range (SW ST T R : number) (B E : Z) :
  (1 <= B)%Z ->
  forall count i acc t0,
    acc_total_treads acc = of_Z t0 -> (0 <= t0)%Z ->
    (t0 + Z.of_nat count * (B - 1) + Z.max 0 (Z.min (i + Z.of_nat count) E - i)
       <= 2 ^ 53)%Z ->
    acc_total_treads
      (fold_left (accumulate SW ST T R)
         (map (fun j => flight_of Math_sqrt exponentiate (of_Z (risers_at B E j)) T R)
              (Zrange i count)) acc)
    = of_Z (t0 + Z.of_nat count * (B - 1)
            + Z.max 0 (Z.min (i + Z.of_nat count) E - i)).
Proof.
  intros HB. induction count as [| count IH]; intros i acc t0 Hacc Ht0 Hbound.
  - cbn [Zrange map fold_left]. rewrite Hacc. f_equal. lia.
  - cbn [Zrange map fold_left].
    assert (Hprod : (Z.of_nat (S count) * (B - 1)
                     = Z.of_nat count * (B - 1) + (B - 1))%Z)
      by (rewrite Nat2Z.inj_succ; ring).
    assert (Hnn : (0 <= Z.of_nat count * (B - 1))%Z) by nia.
    rewrite Hprod in Hbound |- *. rewrite Nat2Z.inj_succ in Hbound |- *.
    set (P := (Z.of_nat count * (B - 1))%Z) in *.
    unfold risers_at.
    rewrite (IH (i + 1)%Z _ (t0 + (B + (if (i <? E)%Z then 1 else 0) - 1))%Z).
    + f_equal. destruct (Z.ltb_spec i E); lia.
    + cbn [accumulate acc_total_treads treads flight_of]. rewrite Hacc.
      change (Finite 1) with (of_Z 1).
      rewrite sub_of_Z by (destruct (Z.ltb_spec i E); lia).
      apply add_of_Z. destruct (Z.ltb_spec i E); lia.
    + destruct (Z.ltb_spec i E); lia.
    + destruct (Z.ltb_spec i E); lia.
Qed.

(** *** Signs *)

Lemma round_magnitude_signed (s : bool) (n d : positive) :
  match round_magnitude s n d with
  | NaN => False
  | Infinity t | Zero t => t = s
  | Finite q => if s then q <= 0 else 0 <= q
  end.
Proof.
  unfold round_magnitude.
  set (u := ulp_exponent n d). set (M := significand n d u).
  assert (HM : (0 <= M)%Z).
  { unfold M, significand.
    assert (Hne : forall N D, (0 <= N)%Z -> (0 < D)%Z -> (0 <= nearest_even N D)%Z).
    { intros N D HN HD. pose proof (Z.div_pos N D HN HD).
      destruct (nearest_even_cases N D HD) as [[-> _] | [-> _]]; lia. }
    destruct (Z.leb_spec u 0); apply Hne.
    - assert (0 <= 2 ^ (- u))%Z by (apply Z.pow_nonneg; lia). lia.
    - lia.
    - lia.
    - assert (0 < 2 ^ u)%Z by (apply Z.pow_pos_nonneg; lia). lia. }
  destruct (M =? 0)%Z; [reflexivity |].
  destruct (_ || _); [reflexivity |].
  assert (Hs : 0 <= scaled M u).
  { unfold scaled. destruct (0 <=? u)%Z.
    - change 0 with (inject_Z 0). rewrite <- Zle_Qle.
      assert (0 <= 2 ^ u)%Z by (apply Z.pow_nonneg; lia). lia.
    - unfold Qle. cbn [Qnum Qden]. lia. }
  destruct s; rewrite Qred_correct; [| exact Hs].
  assert (Ho : scaled (- M) u == - scaled M u).
  { unfold scaled. destruct (0 <=? u)%Z.
    - rewrite <- inject_Z_opp. f_equal. apply inject_Z_injective. ring.
    - reflexivity. }
  rewrite Ho. apply (Qopp_le_compat 0 (scaled M u)). exact Hs.
Qed.








Lemma sign_not_negative (q : Q) : 0 <= q -> (Qnum q <? 0)%Z = false.
Proof. intros H. apply Z.ltb_ge. unfold Qle in H. cbn [Qnum Qden] in H. lia. Qed.




Lemma positive_passes (y : number) :
  lt (Zero false) y = true -> le y (Zero false) = false.
Proof.
  intros H. apply number_lt_not_le. exact H.
Qed.










(** A number that is not positive stays so when divided by 1000. *)
Lemma milli_nonpositive (x : number) :
  le x (Zero false) = true -> le (div x (Finite 1000)) (Zero false) = true.
Proof.
  unfold le. destruct x as [| s | s | [[| n | n] d]]; cbn [compare div sign xorb];
    try discriminate; try reflexivity.
  - destruct s; [reflexivity | discriminate].
  - intros _. unfold F, Qdiv, Qmult, Qinv. cbn [Qnum Qden Z.mul].
    pose proof (round_magnitude_signed true (n * 1) (d * 1000)) as Hs.
    destruct (round_magnitude true (n * 1) (d * 1000)) as [| t | t | q];
      [contradiction | subst t; reflexivity | reflexivity |].
    cbn [compare]. cbv beta iota in Hs. apply Qle_alt in Hs.
    destruct (q ?= 0) eqn:E; try reflexivity. contradiction.
Qed.



Lemma passed_cases (x : number) :
  le x (Zero false) = false ->
  x = NaN \/ x = Infinity false \/ exists n d, x = Finite (Zpos n # d).
Proof.
  unfold le. destruct x as [| s | s | [[| n | n] d]]; cbn [compare]; try discriminate.
  - left. reflexivity.
  - destruct s; [discriminate | right; left; reflexivity].
  - right. right. exists n, d. reflexivity.
Qed.

(** The riser total of an input that passes line 16: not a number,
    infinite, zero, or a positive integer. *)
Lemma passed_totalRisers_cases (H R : number) :
  le R (Zero false) = false -> le H (Zero false) = false ->
  let tr := total_risers_of H R in
  tr = NaN \/ tr = Infinity false \/ tr = Zero false \/
  exists z, tr = of_Z z /\ (0 < z)%Z.
Proof.
  intros HR HH. cbv zeta. unfold total_risers_of.
  destruct (passed_cases _ HH) as [-> | [-> | (hn & hd & ->)]];
    destruct (passed_cases _ HR) as [-> | [-> | (rn & rd & ->)]];
    cbn [div sign xorb Qnum Math_round]; try (left; reflexivity).
  - right. left. reflexivity.
  - right. right. left. reflexivity.
  - unfold F, Qdiv, Qmult, Qinv. cbn [Qnum Qden Z.mul].
    pose proof (round_magnitude_signed false (hn * rd) (hd * rn)) as Hsign.
    cbv beta iota in Hsign.
    destruct (round_magnitude false (hn * rd) (hd * rn)) as [| s | s | q];
      [contradiction | subst s; right; left; reflexivity
       | subst s; right; right; left; reflexivity |].
    cbn [Math_round sign].
    assert (Hz : (0 <= Qfloor (q + (1 # 2)))%Z).
    { change 0%Z with (Qfloor 0). apply Qfloor_resp_le.
      apply Qle_trans with (1 := Hsign).
      rewrite <- (Qplus_0_r q) at 1. apply Qplus_le_r. discriminate. }
    rewrite (sign_not_negative q Hsign).
    destruct (Z.eqb_spec (Qfloor (q + (1 # 2))) 0) as [E | E];
      [right; right; left; reflexivity |].
    right. right. right. exists (Qfloor (q + (1 # 2))).
    rewrite of_Z_pos by lia. split; [reflexivity | lia].
Qed.

(** The riser total of a valid input: not a number (infinity over
    infinity), infinite, zero, or a positive integer. *)
Lemma double_totalRisers_cases (p : StairInputParams) :
  valid_input p ->
  totalRisers p = NaN \/ totalRisers p = Infinity false \/
  totalRisers p = Zero false \/
  exists z, totalRisers p = of_Z z /\ (0 < z)%Z.
Proof.
  intros (HR & HH & _).
  exact (passed_totalRisers_cases _ _ (positive_passes _ HR) (positive_passes _ HH)).
Qed.

(** The same, when the total is below 2^53. *)
Lemma double_valid_totalRisers (p : StairInputParams) :
  valid_input p -> lt (totalRisers p) (of_Z (2 ^ 53)) = true ->
  totalRisers p = Zero false \/
  exists z, totalRisers p = of_Z z /\ (0 < z < 2 ^ 53)%Z.
Proof.
  intros Hvalid Hsmall.
  destruct (double_totalRisers_cases p Hvalid) as [E | [E | [E | (z & E & Hz)]]];
    rewrite E in Hsmall |- *; try discriminate Hsmall.
  - left. reflexivity.
  - right. exists z. rewrite lt_of_Z in Hsmall. split; [reflexivity | lia].
Qed.




(** *** Quantities that are not negative *)





(** The report of a valid input whose riser total is below 2^53: the
    total is an integer [z], spread over [N] flights. *)
Lemma double_small_report (p : StairInputParams) :
  valid_input p -> lt (totalRisers p) (of_Z (2 ^ 53)) = true ->
  exists z N,
    totalRisers p = of_Z z /\ (0 <= z < 2 ^ 53)%Z /\
    (z = 0 -> N = 0)%Z /\ (0 < z -> 1 <= N <= z)%Z /\
    clamp_num_flights (banded_num_flights (height p) (of_Z z)) (of_Z z) = of_Z N /\
    (forall fuel, (Z.to_nat N < fuel)%nat ->
       exists m, calculateStairMetrics Math_sqrt exponentiate fuel p = Some m) /\
    (forall fuel m,
       calculateStairMetrics Math_sqrt exponentiate fuel p = Some m ->
       num_flights m = of_Z N /\
       num_landings m = of_Z (Z.max (N - 1) 0) /\
       flights_data m =
         flights_of Math_sqrt exponentiate
           (div (tread p) (Finite 1000)) (div (riser p) (Finite 1000)) z N /\
       total_treads m = of_Z (z - N)).
Proof.
  intros Hvalid Hsmall. pose proof (double_gate_valid p Hvalid) as Hgate.
  destruct (double_valid_totalRisers p Hvalid Hsmall) as [Htr | (z & Htr & Hz)].
  - exists 0%Z, 0%Z.
    assert (Heq : eq (totalRisers p) (Zero false) = true) by (rewrite Htr; reflexivity).
    split; [exact Htr |]. split; [split; [lia | reflexivity] |].
    split; [reflexivity |]. split; [lia |]. split; [reflexivity |].
    split.
    + intros [| fuel] Hfuel; [cbn in Hfuel; lia |].
      destruct (no_risers_report fuel p Hgate Heq) as (m & Hm & _).
      exists m. exact Hm.
    + intros [| fuel] m Hm.
      * unfold calculateStairMetrics in Hm. rewrite Hgate in Hm. discriminate.
      * destruct (no_risers_report fuel p Hgate Heq)
          as (m' & Hm' & Hn & Hl & Hf & Ht & _).
        assert (m = m') by congruence. subst m'.
        rewrite Hn, Hl, Hf, Ht. repeat split; reflexivity.
  - destruct (double_valid_report p z Hgate Htr Hz)
      as (N & HN & Hclamp & _ & _ & Hreturns & Hreport).
    exists z, N. split; [exact Htr |]. split; [lia |]. split; [lia |].
    split; [intros _; exact HN |]. split; [exact Hclamp |].
    split; [exact Hreturns |].
    intros fuel m Hm. destruct (Hreport fuel m Hm) as (Hn & Hl & E).
    split; [exact Hn |]. split; [rewrite Hl; f_equal; lia |]. split; [exact E |].
    assert (Ht : total_treads m =
                 acc_total_treads
                   (fold_left (accumulate (div (stairWidth p) (Finite 1000))
                                 (div (slabThick p) (Finite 1000))
                                 (div (tread p) (Finite 1000))
                                 (div (riser p) (Finite 1000)))
                      (flights_data m) no_totals)).
    { clear E. unfold calculateStairMetrics in Hm. rewrite Hgate in Hm.
      destruct (flights_loop _ _ _ _ _ _ _ _ _ _); [| discriminate].
      injection Hm as <-. reflexivity. }
    rewrite Ht, E. unfold flights_of.
    pose proof (Z.div_mod z N ltac:(lia)).
    pose proof (Z.mod_pos_bound z N ltac:(lia)).
    assert (HB : (1 <= z / N)%Z) by (apply Z.div_le_lower_bound; lia).
    rewrite (treads_range _ _ _ _ (z / N) (z mod N) HB _ 0%Z no_totals 0%Z);
      [f_equal | reflexivity | lia |]; rewrite Z2Nat.id by lia; nia.
Qed.


(** *** The properties of the specification, and further ones *)





(** C7.  In every report returned, each flight has its fields related as
    lines 62-66 compute them on doubles: [treads] is [risers - 1], [run]
    is [treads * T], [rise] is [risers * R] and [inclined_length] is
    [Math.sqrt (run ** 2 + rise ** 2)], with [T] and [R] the echoed
    tread / 1000 and riser / 1000.  When the input is valid and its
    totalRisers below [2 ^ 53], the subtraction is exact: each flight has
    an integer riser count [r >= 1] and [r - 1] treads. *)
Theorem flight_geometry (fuel : nat) (p : StairInputParams) (m : StairMetrics) :
  calculateStairMetrics Math_sqrt exponentiate fuel p = Some m ->
  Forall (built_by_lines_62_66 Math_sqrt exponentiate (T m) (R m)) (flights_data m) /\
  T m = div (tread p) (Finite 1000) /\ R m = div (riser p) (Finite 1000) /\
  (valid_input p -> lt (totalRisers p) (of_Z (2 ^ 53)) = true ->
   Forall (fun flight =>
             exists r, (1 <= r)%Z /\ risers flight = of_Z r /\
                       treads flight = of_Z (r - 1))
          (flights_data m)).
Proof.
  intros Hm. split; [exact (report_flights_built fuel p m Hm) |].
  split; [| split].
  - unfold calculateStairMetrics in Hm. destruct (gate _ _ _).
    + injection Hm as <-. reflexivity.
    + destruct (flights_loop _ _ _ _ _ _ _ _ _ _); [| discriminate].
      injection Hm as <-. reflexivity.
  - unfold calculateStairMetrics in Hm. destruct (gate _ _ _).
    + injection Hm as <-. reflexivity.
    + destruct (flights_loop _ _ _ _ _ _ _ _ _ _); [| discriminate].
      injection Hm as <-. reflexivity.
  - intros Hvalid Hsmall.
    destruct (double_small_report p Hvalid Hsmall)
      as (z & N & _ & Hz & HN0 & HN & _ & _ & Hreport).
    destruct (Hreport fuel m Hm) as (_ & _ & -> & _).
    destruct (Z.eq_dec z 0) as [-> | Hnz].
    + rewrite (HN0 eq_refl). constructor.
    + apply Forall_forall. intros f Hin.
      destruct (flights_of_In _ _ _ _ _ (HN ltac:(lia)) Hin)
        as (r & Hr & _ & Hrz & ->).
      exists r. split; [lia |]. split; [reflexivity |].
      cbn [treads flight_of]. change (Finite 1) with (of_Z 1).
      apply sub_of_Z. lia.
Qed.

(** C10.  For an input that passes line 16 as valid and whose totalRisers
    is 0, the engine returns with any fuel at all; [num_flights],
    [num_landings], [total_treads], [volume_waist_slabs], [volume_steps]
    and [formwork_above_slab] are 0, [flights_data] is empty and [R], [T],
    [ST], [LD], [LT] are echoed.  Each other aggregate multiplies
    input-dependent factors by 0: it is a zero provided those factors are
    finite. *)
Theorem degenerate_valid_zero_report (p : StairInputParams) :
  valid_input p -> eq (totalRisers p) (Zero false) = true ->
  let SW := div (stairWidth p) (Finite 1000) in
  let R' := div (riser p) (Finite 1000) in
  let T' := div (tread p) (Finite 1000) in
  let ST' := div (slabThick p) (Finite 1000) in
  let LL := div (landingLength p) (Finite 1000) in
  let LD' := div (landingDepth p) (Finite 1000) in
  let LT' := div (landingThick p) (Finite 1000) in
  forall fuel, exists m,
    calculateStairMetrics Math_sqrt exponentiate (S fuel) p = Some m /\
    num_flights m = Zero false /\ num_landings m = Zero false /\
    total_treads m = Zero false /\ flights_data m = [] /\
    volume_waist_slabs m = Zero false /\ volume_steps m = Zero false /\
    formwork_above_slab m = Zero false /\
    R m = R' /\ T m = T' /\ ST m = ST' /\ LD m = LD' /\ LT m = LT' /\
    (finite SW = true -> finite ST' = true ->
       is_zero (formwork_bottom_slab m) = true) /\
    (finite (mul LL LD') = true -> is_zero (formwork_landing_bottom m) = true) /\
    (finite (mul (mul LL LD') LT') = true ->
       is_zero (volume_landings m) = true /\ is_zero (total_volume m) = true) /\
    (finite (add (mul R' SW) (div (mul R' T') (Finite 2))) = true ->
       is_zero (formwork_risers m) = true) /\
    (finite SW = true -> finite ST' = true -> finite (mul LL LD') = true ->
     finite (add (mul R' SW) (div (mul R' T') (Finite 2))) = true ->
       is_zero (total_formwork_area m) = true).
Proof.
  intros Hvalid Hzero SW R' T' ST' LL LD' LT' fuel.
  destruct (no_risers_report fuel p (double_gate_valid p Hvalid) Hzero)
    as (m & Hm & Hn & Hl & Hf & Ht & Hw & Hs & Ha & Hb & Hlb & Hvl & Hfr & Htv & Hfa
        & HR & HT & HST & HLD & HLT).
  pose proof (eq_zero_Math_round _ Hzero) as Hz.
  change (is_zero (totalRisers p) = true) in Hz.
  destruct (totalRisers p) as [| s | s | q] eqn:Etr; try discriminate Hz.
  assert (Hbottom : finite SW = true -> finite ST' = true ->
                    is_zero (formwork_bottom_slab m) = true).
  { intros H1 H2. rewrite Hb. apply add_zeros; apply mul_zero_l; assumption. }
  assert (Hlanding : finite (mul LL LD') = true ->
                     is_zero (formwork_landing_bottom m) = true).
  { intros H1. rewrite Hlb. apply mul_zero_r. exact H1. }
  assert (Hrisers : finite (add (mul R' SW) (div (mul R' T') (Finite 2))) = true ->
                    is_zero (formwork_risers m) = true).
  { intros H1. rewrite Hfr. apply mul_zero_r. exact H1. }
  exists m. repeat split; try assumption.
  - rewrite Hvl. apply mul_zero_r. assumption.
  - rewrite Htv. apply add_zeros; [reflexivity |]. rewrite Hvl. apply mul_zero_r. assumption.
  - intros H1 H2 H3 H4. rewrite Hfa.
    apply add_zeros; [apply add_zeros |]; auto.
Qed.







(** X26.  In double arithmetic too, an input with riser <= 0, height <= 0
    or tread <= 0 gets the zero report: dividing by 1000 keeps a number
    that is not positive that way. *)
Theorem zero_report_on_nonpositive_double (fuel : nat) (p : StairInputParams) :
  le (riser p) (Zero false) = true \/ le (height p) (Zero false) = true \/
  le (tread p) (Zero false) = true ->
  calculateStairMetrics Math_sqrt exponentiate fuel p
  = Some (zero_report (div (riser p) (Finite 1000)) (div (tread p) (Finite 1000))
            (div (slabThick p) (Finite 1000)) (div (landingDepth p) (Finite 1000))
            (div (landingThick p) (Finite 1000))).
Proof.
  intros Hraw. unfold calculateStairMetrics, gate.
  destruct Hraw as [H | [H | H]].
  - rewrite (milli_nonpositive _ H). reflexivity.
  - rewrite H, orb_true_r. reflexivity.
  - rewrite (milli_nonpositive _ H), orb_true_r. reflexivity.
Qed.


End Doubles.

(** ** The engine on doubles at concrete inputs *)

Section DoublesAtInputs.

Import IEEE.

(** [F] and the operations agree with the standard library's IEEE 754
    specification at binary64: on the literals, on quotients that round,
    on a product that overflows, a quotient that underflows, a sum and a
    difference that lose their last bit, and on the square root. *)
Example agrees_with_SpecFloat :
  let b := binary64_of_Z in
  let SFadd := SpecFloat.SFadd 53 1024 in
  let SFsub := SpecFloat.SFsub 53 1024 in
  let SFmul := SpecFloat.SFmul 53 1024 in
  let SFdiv := SpecFloat.SFdiv 53 1024 in
  let SFsqrt := SpecFloat.SFsqrt 53 1024 in
  let tiny := SpecFloat.S754_finite false 20 (-1074) in
  of_spec_float (SFdiv (b 57%Z) (b 10%Z)) = F 5.7 /\
  of_spec_float (SFdiv (b 41%Z) (b 10%Z)) = F 4.1 /\
  of_spec_float (SFdiv (b 2%Z) (b 10%Z)) = F 0.2 /\
  of_spec_float (SFdiv (SFdiv (b 41%Z) (b 10%Z)) (SFdiv (b 2%Z) (b 10%Z)))
  = div (F 4.1) (F 0.2) /\
  of_spec_float (SFdiv (SFdiv (b 12325%Z) (b 1000%Z)) (SFdiv (b 17%Z) (b 100%Z)))
  = div (F 12.325) (F 0.17) /\
  of_spec_float (SFdiv (b (10 ^ 17)%Z) (b 6%Z)) = div (F (inject_Z (10 ^ 17))) (Finite 6) /\
  of_spec_float (SFadd (b 16666666666666666%Z) (b 1%Z))
  = add (Finite 16666666666666666) (Finite 1) /\
  of_spec_float (SFsub (b 16666666666666668%Z) (b 1%Z))
  = sub (Finite 16666666666666668) (Finite 1) /\
  of_spec_float (SFmul (b (10 ^ 200)%Z) (b (10 ^ 200)%Z))
  = mul (F (inject_Z (10 ^ 200))) (F (inject_Z (10 ^ 200))) /\
  of_spec_float (SFmul (SpecFloat.S754_infinity false) (SpecFloat.S754_zero false))
  = mul (Infinity false) (Zero false) /\
  of_spec_float tiny = F (1 # 10 ^ 322) /\
  of_spec_float (SFdiv tiny (b 1000%Z)) = div (F (1 # 10 ^ 322)) (Finite 1000) /\
  of_spec_float (SFmul (SFdiv (b 28%Z) (b 100%Z)) (b 10%Z)) = mul (F 0.28) (Finite 10) /\
  of_spec_float (SFsqrt (SFdiv (b 117604%Z) (b 10000%Z))) = sqrt_nearest (F 11.7604) /\
  of_spec_float (SFsqrt (b 2%Z)) = sqrt_nearest (Finite 2).
Proof. vm_compute. repeat split; reflexivity. Qed.

(** The default form values: 22 risers in two flights of 11, ten treads
    each, one landing, twenty treads. *)
Example double_default_report :
  let p := double_input default_params in
  totalRisers p = Finite 22 /\
  option_map (fun m => (num_flights m, num_landings m, total_treads m,
                        map risers (flights_data m), map treads (flights_data m)))
             (calculateStairMetrics sqrt_nearest square 3 p)
  = Some (Finite 2, Finite 1, Finite 20, [Finite 11; Finite 11],
          [Finite 10; Finite 10]).
Proof. vm_compute. split; reflexivity. Qed.

(** 4.1 / 0.2 is 20.5, but the double quotient is 20.499999999999996:
    20 risers, not 21. *)
Example double_quotient_below_half :
  let p := double_input half_riser_params in
  totalRisers p = Finite 20 /\
  option_map (fun m => (map risers (flights_data m), total_treads m))
             (calculateStairMetrics sqrt_nearest square 3 p)
  = Some ([Finite 10; Finite 10], Finite 18).
Proof. vm_compute. split; reflexivity. Qed.

(** 0.3 / 0.2 rounds to one riser, and 12.325 / 0.17 to 72 risers in four
    flights. *)
Example double_quotients_rounded :
  let p := double_input (with_riser 200 (with_height 0.3 default_params)) in
  let q := double_input (with_riser 170 (with_height 12.325 default_params)) in
  totalRisers p = Finite 1 /\
  option_map num_flights (calculateStairMetrics sqrt_nearest square 2 p)
  = Some (Finite 1) /\
  totalRisers q = Finite 72 /\
  option_map num_flights (calculateStairMetrics sqrt_nearest square 5 q)
  = Some (Finite 4).
Proof. vm_compute. repeat split; reflexivity. Qed.

(** The band boundaries are the doubles nearest to 5.7, 8 and 12. *)
Example double_bands :
  let flights h :=
    option_map num_flights
      (calculateStairMetrics sqrt_nearest square 7
         (double_input (with_height h default_params))) in
  flights 5.7 = Some (Finite 2) /\ flights 5.701 = Some (Finite 4) /\
  flights 8 = Some (Finite 4) /\ flights 8.001 = Some (Finite 6) /\
  flights 12 = Some (Finite 6) /\ flights 12.001 = Some (Finite 4).
Proof. vm_compute. repeat split; reflexivity. Qed.

Lemma double_default_valid : valid_input (double_input default_params).
Proof. vm_compute. repeat split; reflexivity. Defined.


Lemma double_default_small :
  lt (totalRisers (double_input default_params)) (of_Z (2 ^ 53)) = true.
Proof. reflexivity. Defined.


Lemma double_default_returns :
  exists m,
    calculateStairMetrics sqrt_nearest square 3 (double_input default_params)
    = Some m.
Proof. eexists. vm_compute. reflexivity. Defined.









(** C7, as stated, at 10 m climbed in risers of 1e-13 mm: the first four
    flights have 16666666666666668 risers and as many treads, not one
    fewer; the last two have 16666666666666666 risers and two treads
    fewer. *)
Lemma flight_geometry_counterexample :
  let p := double_input fine_riser_params in
  option_map (fun m => map (fun flight => (risers flight, treads flight))
                           (flights_data m))
             (calculateStairMetrics sqrt_nearest square 7 p)
  = Some [(of_Z 16666666666666668, of_Z 16666666666666668);
          (of_Z 16666666666666668, of_Z 16666666666666668);
          (of_Z 16666666666666668, of_Z 16666666666666668);
          (of_Z 16666666666666668, of_Z 16666666666666668);
          (of_Z 16666666666666666, of_Z 16666666666666664);
          (of_Z 16666666666666666, of_Z 16666666666666664)].
Proof. vm_compute. reflexivity. Qed.

Lemma flight_geometry_witness :
  let p := double_input default_params in
  exists m,
    calculateStairMetrics sqrt_nearest square 3 p = Some m /\
    Forall (built_by_lines_62_66 sqrt_nearest square (T m) (R m))
           (flights_data m) /\
    Forall (fun flight =>
              exists r, (1 <= r)%Z /\ risers flight = of_Z r /\
                        treads flight = of_Z (r - 1))
           (flights_data m).
Proof.
  intros p.
  destruct double_default_returns as (m & Hm).
  exists m. split; [exact Hm |].
  destruct (flight_geometry sqrt_nearest square 3 p m Hm) as (Hbuilt & _ & _ & Hexact).
  split; [exact Hbuilt |].
  exact (Hexact double_default_valid double_default_small).
Defined.

(** C10, as stated, at a height of 0.05 m with a landing of 1e200 mm by
    1e200 mm: the input is valid and totalRisers is 0, yet the landing
    formwork, the landing volume and both totals are [NaN], not 0: the
    landing area overflows, and infinity times 0 is [NaN]. *)
Lemma degenerate_valid_zero_report_counterexample :
  let p := double_input vast_landing_params in
  positive_input p /\ valid_input p /\
  totalRisers p = Zero false /\
  option_map (fun m => (formwork_landing_bottom m, volume_landings m,
                        total_volume m, total_formwork_area m))
             (calculateStairMetrics sqrt_nearest square 1 p)
  = Some (NaN, NaN, NaN, NaN).
Proof. vm_compute. repeat split; reflexivity. Qed.

Lemma degenerate_valid_zero_report_witness :
  let p := double_input low_rise_params in
  valid_input p /\ eq (totalRisers p) (Zero false) = true /\
  exists m,
    calculateStairMetrics sqrt_nearest square 1 p = Some m /\
    num_flights m = Zero false /\ flights_data m = [] /\
    is_zero (total_volume m) = true /\
    is_zero (total_formwork_area m) = true.
Proof.
  intros p.
  assert (Hv : valid_input p) by (vm_compute; repeat split; reflexivity).
  assert (Hz : eq (totalRisers p) (Zero false) = true) by reflexivity.
  pose proof (degenerate_valid_zero_report sqrt_nearest square p Hv Hz) as H.
  cbv zeta in H.
  destruct (H 0%nat)
    as (m & Hm & Hn & _ & _ & Hf & _ & _ & _ & _ & _ & _ & _ & _
        & _ & _ & Hvol & _ & Harea).
  split; [exact Hv |]. split; [exact Hz |].
  exists m. split; [exact Hm |]. split; [exact Hn |]. split; [exact Hf |].
  split.
  - apply Hvol. vm_compute. reflexivity.
  - apply Harea; vm_compute; reflexivity.
Defined.







Lemma zero_report_on_nonpositive_double_witness :
  let p := double_input zero_riser_params in
  le (riser p) (Zero false) = true /\
  calculateStairMetrics sqrt_nearest square 0 p
  = Some (zero_report (div (riser p) (Finite 1000)) (div (tread p) (Finite 1000))
            (div (slabThick p) (Finite 1000)) (div (landingDepth p) (Finite 1000))
            (div (landingThick p) (Finite 1000))).
Proof.
  intros p.
  assert (Hle : le (riser p) (Zero false) = true) by reflexivity.
  split; [exact Hle |].
  exact (zero_report_on_nonpositive_double sqrt_nearest square 0 p (or_introl Hle)).
Defined.


End DoublesAtInputs.
